(** * grype/pkg/package.go: normalisation of scanned packages

    A shallow embedding of [grype/pkg/package.go]: the source-RPM filename
    parser, the per-ecosystem extractors, the dispatcher [dataFromPkg], the
    builder [New] and the catalog lookup [ByID], together with the properties
    the specification states about them.

    Go strings are byte sequences; they are modelled by [string] (a sequence
    of [ascii], that is, of bytes).  Go maps with string keys are modelled by
    [gmap string _], and a lookup [m[k]] of a Go [map[string]string], which
    yields the empty string on a missing key, by [m !!! k]. *)

Set Warnings "-register-all".
From Stdlib Require Import ZArith Ascii String List.
From stdpp Require Import base option list strings gmap.

Local Open Scope string_scope.

(** ** Strings as byte lists *)

Definition bytes (s : string) : list ascii := list_ascii_of_string s.
Definition str (l : list ascii) : string := string_of_list_ascii l.

(** Go's [s[i:j]] on a byte list. *)
Definition slice (l : list ascii) (i j : nat) : list ascii :=
  take (j - i) (drop i l).

(** Lookup in a Go [map[string]string]: the zero value on a missing key. *)
Definition get (m : gmap string string) (k : string) : string :=
  default "" (m !! k).

Notation "m !!! k" := (get m k) (at level 20).

(** ** Regular expressions (package [regexp] of the Go library)

    The fragment of the syntax that [rpmPackageNamePattern] uses: single-byte
    classes, greedy repetition of a class, and capture groups.  A pattern is a
    sequence of nodes.  Go's matcher returns the leftmost-first match, the one
    a backtracking matcher that tries the longest repetition first finds first;
    [exec] is that matcher, written with a continuation for the rest of the
    pattern.

    The classes of the pattern at hand only tell the ASCII bytes [-], [.],
    newline and the letters apart from the other bytes, and every byte of a
    multi-byte UTF-8 sequence lies outside ASCII, so matching byte by byte
    captures the same substrings as Go's matching of runes. *)

Definition cset := ascii -> bool.

Inductive re : Type :=
| Chr (f : cset)                     (* one byte of the class *)
| Star (f : cset)                    (* [f*], greedy *)
| Plus (f : cset)                    (* [f+], greedy *)
| Grp (i : nat) (body : list re).    (* capture group number [i] *)

(** The capture registers: group number to (start, end) offsets. *)
Abbreviation caps := (gmap nat (nat * nat)).

Definition cont := list ascii -> nat -> caps -> option caps.

Fixpoint star (f : cset) (k : cont) (s : list ascii) (pos : nat) (c : caps)
  : option caps :=
  match s with
  | a :: s' =>
      if f a then
        match star f k s' (S pos) c with
        | Some r => Some r
        | None => k s pos c
        end
      else k s pos c
  | [] => k s pos c
  end.

Fixpoint exec (r : re) (k : cont) {struct r} : cont :=
  match r with
  | Chr f => fun s pos c =>
      match s with
      | a :: s' => if f a then k s' (S pos) c else None
      | [] => None
      end
  | Star f => star f k
  | Plus f => fun s pos c =>
      match s with
      | a :: s' => if f a then star f k s' (S pos) c else None
      | [] => None
      end
  | Grp i body => fun s pos c =>
      (fix seq (l : list re) (k' : cont) {struct l} : cont :=
         match l with
         | [] => k'
         | r' :: l' => exec r' (seq l' k')
         end) body (fun s' pos' c' => k s' pos' (<[i := (pos, pos')]> c')) s pos c
  end.

Fixpoint exec_seq (l : list re) (k : cont) : cont :=
  match l with
  | [] => k
  | r :: l' => exec r (exec_seq l' k)
  end.

(** A compiled pattern anchored at both ends ([^...$]): its nodes, and the
    names of its groups by number (group 0 is the whole match). *)
Record Regexp : Type := {
  nodes : list re;
  SubexpNames : list string;
}.

(** [$]: the end of the text. *)
Definition at_end : cont :=
  fun s _ c => match s with [] => Some c | _ :: _ => None end.

(** [FindStringSubmatch]: the text of every group of the leftmost-first match,
    by group number ([""] for a group that took no part), or [None] (Go's nil
    slice) when the pattern does not match. *)
Definition FindStringSubmatch (rx : Regexp) (s : string) : option (list string) :=
  let text := bytes s in
  match exec (Grp 0 (nodes rx)) at_end text 0 ∅ with
  | None => None
  | Some c =>
      Some (map (fun i => match c !! i with
                          | Some (b, e) => str (slice text b e)
                          | None => ""
                          end)
                (seq 0 (length (SubexpNames rx))))
  end.

(** The classes of [rpmPackageNamePattern]. *)
Definition lit (a : ascii) : cset := fun b => Ascii.eqb a b.
Definition dot : cset := fun b => negb (Ascii.eqb b "010").       (* any byte but newline *)
Definition alpha : cset := fun b =>                                (* a-z, A-Z *)
  let n := nat_of_ascii b in
  ((97 <=? n) && (n <=? 122) || (65 <=? n) && (n <=? 90))%nat.
Definition not_dot : cset := fun b => negb (Ascii.eqb b ".").     (* any byte but a dot *)

(** [rpmPackageNamePattern], node by node.  With blanks between its parts the
    expression of the source reads
    [^ (?P<name> .* ) - (?P<version> .* ) - (?P<release> .* ) \. (?P<arch> [a-zA-Z] [^.]+ ) ( \.rpm ) $]. *)
Definition rpmPackageNamePattern : Regexp := {|
  nodes :=
    [ Grp 1 [Star dot]; Chr (lit "-");
      Grp 2 [Star dot]; Chr (lit "-");
      Grp 3 [Star dot]; Chr (lit ".");
      Grp 4 [Chr alpha; Plus not_dot];
      Grp 5 [Chr (lit "."); Chr (lit "r"); Chr (lit "p"); Chr (lit "m")] ];
  SubexpNames := [""; "name"; "version"; "release"; "arch"; ""];
|}.

(** Modelled from the spec: [internal.MatchCaptureGroups] is not part of the
    file (section 4.1).  It maps every declared group name to the text the
    group matched; when the expression does not match, every declared group
    name maps to the empty string.  A group without a name declares none. *)
Definition named (l : list (string * string)) : list (string * string) :=
  filter (fun nv => negb (String.eqb (fst nv) "")) l.

Definition MatchCaptureGroups (rx : Regexp) (s : string) : gmap string string :=
  match FindStringSubmatch rx s with
  | Some ms => list_to_map (named (zip (SubexpNames rx) ms))
  | None => list_to_map (named (map (fun n => (n, "")) (SubexpNames rx)))
  end.

Definition getNameAndELVersion (sourceRpm : string) : string * string :=
  let groupMatches := MatchCaptureGroups rpmPackageNamePattern sourceRpm in
  let version := groupMatches !!! "version" +:+ "-" +:+ groupMatches !!! "release" in
  (groupMatches !!! "name", version).

(** ** [strconv.Atoi] and [strings.SplitN] of the Go library *)

Definition digit (a : ascii) : option Z :=
  let n := nat_of_ascii a in
  if ((48 <=? n) && (n <=? 57))%nat then Some (Z.of_nat n - 48)%Z else None.

(** The value of a non-empty run of decimal digits, most significant first. *)
Fixpoint digits (acc : Z) (l : list ascii) : option Z :=
  match l with
  | [] => Some acc
  | a :: l' =>
      match digit a with
      | Some d => digits (acc * 10 + d)%Z l'
      | None => None
      end
  end.

(** [strconv.Atoi] where [int] has 64 bits: an optional sign and at least one
    decimal digit, nothing else; [None] stands for the syntax error and for the
    range error of a value outside [-2^63 .. 2^63-1]. *)
Definition Atoi (s : string) : option Z :=
  let parse (neg : bool) (l : list ascii) : option Z :=
    match l with
    | [] => None
    | _ :: _ =>
        match digits 0 l with
        | Some n =>
            let v := if neg then (- n)%Z else n in
            if ((- 2 ^ 63 <=? v) && (v <? 2 ^ 63))%Z then Some v else None
        | None => None
        end
    end in
  match bytes s with
  | "-"%char :: l => parse true l
  | "+"%char :: l => parse false l
  | l => parse false l
  end.

(** The text before the first occurrence of the byte [sep] and the text after
    it, if [sep] occurs. *)
Fixpoint cut (sep : ascii) (l : list ascii) : option (list ascii * list ascii) :=
  match l with
  | [] => None
  | a :: l' =>
      if Ascii.eqb a sep then Some ([], l')
      else match cut sep l' with
           | Some (x, y) => Some (a :: x, y)
           | None => None
           end
  end.

(** [strings.SplitN(s, sep, 2)] for a one-byte separator: at most two fields,
    split at the first occurrence of the separator. *)
Definition SplitN2 (s : string) (sep : ascii) : list string :=
  match cut sep (bytes s) with
  | Some (x, y) => [str x; str y]
  | None => [s]
  end.

(** [strings.Split(s, sep)] for a one-byte separator, on byte lists. *)
Fixpoint split (sep : ascii) (l : list ascii) : list (list ascii) :=
  match l with
  | [] => [[]]
  | a :: l' =>
      if Ascii.eqb a sep then [] :: split sep l'
      else match split sep l' with
           | x :: xs => (a :: x) :: xs
           | [] => [[a]]
           end
  end.

(** ** Package URL qualifiers *)

(** Modelled from the spec: the two qualifier keys are declared outside the
    file; section 4.2 names an upstream and an epoch qualifier, spelled as in
    the Package URL of section 8. *)
Definition purlUpstreamQualifier : string := "upstream".
Definition purlEpochQualifier : string := "epoch".

Definition has_scheme (l : list ascii) : bool :=
  match l with
  | "p"%char :: "k"%char :: "g"%char :: ":"%char :: _ => true
  | _ => false
  end.

(** Modelled from the spec: [getPURLQualifiers] is not part of the file
    (section 4.2).  It returns the mapping from qualifier key to qualifier
    value, keys verbatim, and the empty mapping when the string is malformed
    or has no qualifiers.  A Package URL reads
    [pkg:type/name@version?key=value&key=value#subpath]; a string without the
    [pkg:] scheme is taken as malformed, and a qualifier without [=] is
    skipped. *)
Definition getPURLQualifiers (p : string) : gmap string string :=
  let l := bytes p in
  if has_scheme l then
    let l := match cut "#" l with Some (x, _) => x | None => l end in
    match cut "?" l with
    | Some (_, q) =>
        foldl (fun m item =>
                 match cut "=" item with
                 | Some (k, v) => <[str k := str v]> m
                 | None => m
                 end) ∅ (split "&" q)
    | None => ∅
    end
  else ∅.

(** ** The scanner's package record (package [pkg] of syft)

    Only what this file reads.  [Metadata] is an [interface{}]: [any] lists
    the dynamic types the file asserts, [Nil] for the nil interface and
    [Other] for a value of any other type.  Locations and CPEs are carried
    along and never inspected: their types are parameters. *)
Module syft.

Record DpkgMetadata : Type := {
  Source : string;
  SourceVersion : string;
}.

Record RpmdbMetadata : Type := {
  SourceRpm : string;
  Epoch : option Z;                       (* [*int] *)
}.

Record ApkMetadata : Type := {
  OriginPackage : string;
}.

Record PomProperties : Type := {
  ArtifactID : string;
  GroupID : string;
}.

Record JavaManifest : Type := {
  Main : gmap string string;
}.

Record JavaMetadata : Type := {
  VirtualPath : string;
  Manifest : option JavaManifest;         (* [*JavaManifest] *)
  PomProperties_ : option PomProperties;  (* field [PomProperties *PomProperties] *)
}.

Inductive any : Type :=
| Nil
| Dpkg (value : DpkgMetadata)
| Rpmdb (value : RpmdbMetadata)
| Java (value : JavaMetadata)
| Apk (value : ApkMetadata)
| Other.

(** [type MetadataType string] and [type Type string], with the constants
  the dispatcher switches on. *)
Definition DpkgMetadataType : string := "DpkgMetadata".
Definition RpmdbMetadataType : string := "RpmdbMetadata".
Definition JavaMetadataType : string := "JavaMetadata".
Definition ApkMetadataType : string := "ApkMetadata".

Definition ApkPkg : string := "apk".
Definition DebPkg : string := "deb".
Definition RpmPkg : string := "rpm".

Section Package.
Variables Location CPE : Type.

Record Package : Type := {
  ID : string;                          (* the method [ID()] *)
  Name : string;
  Version : string;
  Locations : list Location;
  Licenses : list string;
  Language : string;
  Type_ : string;                       (* field [Type] *)
  CPEs : list CPE;
  PURL : string;
  MetadataType : string;
  Metadata : any;
}.
End Package.

Arguments ID {Location CPE} _.
Arguments Name {Location CPE} _.
Arguments Version {Location CPE} _.
Arguments Locations {Location CPE} _.
Arguments Licenses {Location CPE} _.
Arguments Language {Location CPE} _.
Arguments Type_ {Location CPE} _.
Arguments CPEs {Location CPE} _.
Arguments PURL {Location CPE} _.
Arguments MetadataType {Location CPE} _.
Arguments Metadata {Location CPE} _.

End syft.

(** ** The types of this package declared outside the file *)

(** Modelled from the spec: [UpstreamPackage] is declared in another file of
    the package; section 3 gives its fields, a name and a version. *)
Module UpstreamPackage.
Record t : Type := mk {
  Name : string;
  Version : string;
}.
End UpstreamPackage.

(** Modelled from the spec: [MetadataType] and its constants are declared in
    another file of the package; section 3 gives the kinds none, rpmdb and
    java, none being the zero value of a variable of the type. *)
Inductive MetadataType : Type :=
| UnsetMetadataType
| RpmdbMetadataType
| JavaMetadataType.

(** Modelled from the spec: the two metadata fragments are declared in another
    file of the package; their fields are those the file assigns. *)
Record RpmdbMetadata : Type := {
  Epoch : option Z;                         (* [*int] *)
}.

Record JavaMetadata : Type := {
  VirtualPath : string;
  PomArtifactID : string;
  PomGroupID : string;
  ManifestName : string;
}.

(** The [interface{}] of [Package.Metadata], by the dynamic types the file
    stores in it. *)
Inductive MetadataValue : Type :=
| NoMetadata                                (* the nil interface *)
| RpmdbValue (m : RpmdbMetadata)
| JavaValue (m : JavaMetadata).

(** The kind that goes with a fragment. *)
Definition kind_of (m : MetadataValue) : MetadataType :=
  match m with
  | NoMetadata => UnsetMetadataType
  | RpmdbValue _ => RpmdbMetadataType
  | JavaValue _ => JavaMetadataType
  end.

(** ** The language of a pattern

    What the proofs about the matcher are stated with: the texts a node and a
    sequence of nodes match, the continuation at the end of the whole pattern,
    and the parts of [rpmPackageNamePattern] after each of its first three
    groups. *)

Fixpoint lang (r : re) (l : list ascii) {struct r} : Prop :=
  match r with
  | Chr f => exists a, l = [a] /\ f a = true
  | Star f => Forall (fun a => f a = true) l
  | Plus f => l <> [] /\ Forall (fun a => f a = true) l
  | Grp _ body =>
      (fix seq (rs : list re) (l : list ascii) {struct rs} : Prop :=
         match rs with
         | [] => l = []
         | r' :: rs' =>
             exists l1 l2, l = (l1 ++ l2)%list /\ lang r' l1 /\ seq rs' l2
         end) body l
  end.

Fixpoint lang_seq (rs : list re) (l : list ascii) : Prop :=
  match rs with
  | [] => l = []
  | r :: rs' => exists l1 l2, l = (l1 ++ l2)%list /\ lang r l1 /\ lang_seq rs' l2
  end.

(** The end of the text, where group 0 closes. *)
Definition whole : cont :=
  fun s pos c => at_end s pos (<[0 := (0, pos)]> c).

Definition rpm_suffix : list ascii := bytes ".rpm".

Definition tail3 : list re :=
  [ Chr (lit "."); Grp 4 [Chr alpha; Plus not_dot];
    Grp 5 [Chr (lit "."); Chr (lit "r"); Chr (lit "p"); Chr (lit "m")] ].
Definition tail2 : list re := Chr (lit "-") :: Grp 3 [Star dot] :: tail3.
Definition tail1 : list re := Chr (lit "-") :: Grp 2 [Star dot] :: tail2.

(** The text after the release, after the version and after the name of a
    filename with version [v], release [r] and arch [a0 :: a]. *)
Definition text3 (a0 : ascii) (a : list ascii) : list ascii :=
  ("."%char :: a0 :: a ++ rpm_suffix)%list.
Definition text2 (r : list ascii) (a0 : ascii) (a : list ascii) : list ascii :=
  ("-"%char :: r ++ text3 a0 a)%list.
Definition text1 (v r : list ascii) (a0 : ascii) (a : list ascii) : list ascii :=
  ("-"%char :: v ++ text2 r a0 a)%list.

Definition hyphens (l : list ascii) : nat := count_occ ascii_dec l "-"%char.

(** The texts the groups of the pattern range over: a text without a newline,
    a text without a hyphen, and an arch token, a letter followed by at least
    one byte, none of them a dot. *)
Definition one_line (s : string) : Prop :=
  Forall (fun b => dot b = true) (bytes s).
Definition no_hyphen (s : string) : Prop := ~ In "-"%char (bytes s).
Definition arch_token (s : string) : Prop :=
  exists a0 a, bytes s = a0 :: a /\ alpha a0 = true /\ a <> [] /\
               Forall (fun b => not_dot b = true) a.

(** The texts of the grammar of [rpmPackageNamePattern]. *)
Definition rpm_filename (l : list ascii) : Prop :=
  exists n v r a0 a,
    l = (n ++ text1 v r a0 a)%list /\
    Forall (fun b => dot b = true) n /\ Forall (fun b => dot b = true) v /\
    Forall (fun b => dot b = true) r /\
    alpha a0 = true /\ a <> [] /\ Forall (fun b => not_dot b = true) a.

(** ** Sample inputs

    Scanner records used to run the extractors below; locations and CPEs are
    left empty. *)

Definition scanned (name version type purl metadataType : string)
  (metadata : syft.any) : syft.Package unit unit :=
  {| syft.ID := "1";
     syft.Name := name;
     syft.Version := version;
     syft.Locations := [];
     syft.Licenses := [];
     syft.Language := "";
     syft.Type_ := type;
     syft.CPEs := [];
     syft.PURL := purl;
     syft.MetadataType := metadataType;
     syft.Metadata := metadata |}.

(** The package of the dispatch example: no typed metadata, type RPM. *)
Definition util_linux_purl : string :=
  "pkg:rpm/util-linux-ng@2.17.2?upstream=util-linux-ng-2.17.2-12.28.el6_9.2.src.rpm&epoch=4".

Definition util_linux_pkg : syft.Package unit unit :=
  scanned "util-linux-ng" "2.17.2" syft.RpmPkg util_linux_purl "" syft.Nil.

(** An RPM record built from its own source package. *)
Definition self_built_rpm : syft.Package unit unit :=
  scanned "zlib" "1.2.11" syft.RpmPkg "" syft.RpmdbMetadataType
    (syft.Rpmdb {| syft.SourceRpm := "zlib-1.2.11-17.el8.src.rpm";
                   syft.Epoch := None |}).

(** An RPM record whose source-RPM field is not a source-RPM filename. *)
Definition odd_source_rpm : syft.Package unit unit :=
  scanned "libfoo" "1.0" syft.RpmPkg "" syft.RpmdbMetadataType
    (syft.Rpmdb {| syft.SourceRpm := "libfoo.tar.gz";
                   syft.Epoch := None |}).

(** A Debian record with a source package. *)
Definition deb_with_source : syft.Package unit unit :=
  scanned "libssl1.1" "1.1.1n-0+deb11u3" syft.DebPkg "" syft.DpkgMetadataType
    (syft.Dpkg {| syft.Source := "openssl"; syft.SourceVersion := "" |}).

(** A Debian record without a source package. *)
Definition deb_without_source : syft.Package unit unit :=
  scanned "base-files" "11.1" syft.DebPkg "" syft.DpkgMetadataType
    (syft.Dpkg {| syft.Source := ""; syft.SourceVersion := "" |}).

(** An RPM record with an epoch, built from another source package. *)
Definition rpm_with_epoch : syft.Package unit unit :=
  scanned "libblkid" "2.17.2" syft.RpmPkg "" syft.RpmdbMetadataType
    (syft.Rpmdb {| syft.SourceRpm := "util-linux-ng-4:2.17.2-12.28.el6_9.2.src.rpm";
                   syft.Epoch := Some 4%Z |}).

(** The same record with another type and a Package URL. *)
Definition rpm_with_epoch_relabelled : syft.Package unit unit :=
  scanned "libblkid" "2.17.2" syft.DebPkg util_linux_purl syft.RpmdbMetadataType
    (syft.Rpmdb {| syft.SourceRpm := "util-linux-ng-4:2.17.2-12.28.el6_9.2.src.rpm";
                   syft.Epoch := Some 4%Z |}).

(** The package of the dispatch example under another name and with a stray
    metadata value. *)
Definition util_linux_pkg_renamed : syft.Package unit unit :=
  scanned "libuuid" "2.17.2" syft.RpmPkg util_linux_purl ""
    (syft.Dpkg {| syft.Source := "openssl"; syft.SourceVersion := "" |}).

(** A record of an ecosystem the dispatcher does not know, and a Java archive
    without typed metadata. *)
Definition python_pkg : syft.Package unit unit :=
  scanned "requests" "2.25.1" "python" "pkg:pypi/requests@2.25.1"
    "PythonPackageMetadata" syft.Other.

Definition jar_without_metadata : syft.Package unit unit :=
  scanned "guava" "30.0" "java-archive" "pkg:maven/com.google.guava/guava@30.0"
    "" syft.Nil.

(** A Java archive with a manifest and no POM properties. *)
Definition jar_with_manifest : syft.Package unit unit :=
  scanned "guava" "30.0" "java-archive" "" syft.JavaMetadataType
    (syft.Java {| syft.VirtualPath := "/opt/app/guava.jar";
                  syft.Manifest := Some {| syft.Main := {[ "Name" := "guava" ]} |};
                  syft.PomProperties_ := None |}).

(** ** Logging

    [log.Warnf] writes to a logger and returns nothing.  A function that may
    log is modelled as returning its result together with the warnings it
    wrote, in order; a warning is the format string and the arguments of the
    call. *)

Section Normalize.
Variables Location CPE : Type.

Abbreviation pkgPackage := (syft.Package Location CPE).

Inductive LogArg : Type :=
| ArgStr (s : string)
| ArgPkg (p : pkgPackage).

Record Warning : Type := Warn {
  format : string;
  args : list LogArg;
}.

Definition Log (A : Type) : Type := A * list Warning.

Definition ret {A : Type} (x : A) : Log A := (x, []).

Definition bind {A B : Type} (m : Log A) (k : A -> Log B) : Log B :=
  let '(x, w1) := m in
  let '(y, w2) := k x in
  (y, (w1 ++ w2)%list).

Definition Warnf (fmt : string) (a : list LogArg) : Log unit :=
  (tt, [Warn fmt a]).

Definition result {A : Type} (m : Log A) : A := fst m.
Definition logged {A : Type} (m : Log A) : list Warning := snd m.

Notation "x <- m ;; k" := (bind m (fun x => k))
  (at level 100, m at next level, right associativity).
Notation "m ;;; k" := (bind m (fun _ => k))
  (at level 100, k at level 200, right associativity).

(** ** The normalised package *)

Record Package : Type := {
  ID : string;
  Name : string;
  Version : string;
  Locations : list Location;
  Language : string;
  Licenses : list string;
  Type_ : string;                           (* field [Type] *)
  CPEs : list CPE;
  PURL : string;
  Upstreams : list UpstreamPackage.t;
  MetadataType_ : MetadataType;             (* field [MetadataType] *)
  Metadata : MetadataValue;
}.

(** ** The extractors *)

Definition dpkgDataFromPURL (p : string) : list UpstreamPackage.t :=
  let qualifiers := getPURLQualifiers p in
  let upstream := qualifiers !!! purlUpstreamQualifier in
  if String.eqb upstream "" then []
  else
    let fields := SplitN2 upstream "@" in
    let '(src, sourceVersion) :=
      match fields with
      | f0 :: f1 :: _ => (f0, f1)
      | _ => (upstream, "")
      end in
    [ UpstreamPackage.mk src sourceVersion ].

Definition dpkgDataFromPkg (p : pkgPackage) : Log (list UpstreamPackage.t) :=
  match syft.Metadata p with
  | syft.Dpkg value =>
      if negb (String.eqb (syft.Source value) "") then
        ret [ UpstreamPackage.mk (syft.Source value) (syft.SourceVersion value) ]
      else ret []
  | _ =>
      Warnf "unable to extract DPKG metadata for %s" [ArgPkg p] ;;;
      ret []
  end.

Definition rpmdbDataFromPkg (p : pkgPackage)
  : Log (option RpmdbMetadata * list UpstreamPackage.t) :=
  match syft.Metadata p with
  | syft.Rpmdb value =>
      upstreams <-
        (if negb (String.eqb (syft.SourceRpm value) "") then
           let '(name, version) := getNameAndELVersion (syft.SourceRpm value) in
           if String.eqb name "" && String.eqb version "" then
             Warnf "unable to extract name and version from SourceRPM=%q "
                   [ArgStr (syft.SourceRpm value)] ;;;
             ret []
           else if negb (String.eqb name (syft.Name p)) then
             ret [ UpstreamPackage.mk name version ]
           else ret []
         else ret []) ;;
      let metadata :=
        match syft.Epoch value with
        | Some e => Some {| Epoch := Some e |}
        | None => None
        end in
      ret (metadata, upstreams)
  | _ =>
      Warnf "unable to extract RPM metadata for %s" [ArgPkg p] ;;;
      ret (None, [])
  end.

Definition rpmdbDataFromPURL (p : string)
  : Log (option RpmdbMetadata * list UpstreamPackage.t) :=
  let qualifiers := getPURLQualifiers p in
  let upstream := qualifiers !!! purlUpstreamQualifier in
  let epoch := qualifiers !!! purlEpochQualifier in
  meta <-
    (if negb (String.eqb epoch "") then
       match Atoi epoch with
       | None =>
           Warnf "unable to parse RPM epoch=%q: %+v" [] ;;;
           ret None
       | Some value => ret (Some {| Epoch := Some value |})
       end
     else ret None) ;;
  let upstreams :=
    if negb (String.eqb upstream "") then
      let '(name, version) := getNameAndELVersion upstream in
      [ UpstreamPackage.mk name version ]
    else [] in
  ret (meta, upstreams).

Definition javaDataFromPkg (p : pkgPackage) : Log (option JavaMetadata) :=
  match syft.Metadata p with
  | syft.Java value =>
      let '(artifact, group) :=
        match syft.PomProperties_ value with
        | Some pom => (syft.ArtifactID pom, syft.GroupID pom)
        | None => ("", "")
        end in
      let name :=
        match syft.Manifest value with
        | Some mf =>
            match syft.Main mf !! "Name" with
            | Some n => n
            | None => ""
            end
        | None => ""
        end in
      ret (Some {| VirtualPath := syft.VirtualPath value;
                   PomArtifactID := artifact;
                   PomGroupID := group;
                   ManifestName := name |})
  | _ =>
      Warnf "unable to extract Java metadata for %s" [ArgPkg p] ;;;
      ret None
  end.

Definition apkDataFromPURL (p : string) : list UpstreamPackage.t :=
  let qualifiers := getPURLQualifiers p in
  let upstream := qualifiers !!! purlUpstreamQualifier in
  if negb (String.eqb upstream "") then [ UpstreamPackage.mk upstream "" ]
  else [].

Definition apkDataFromPkg (p : pkgPackage) : Log (list UpstreamPackage.t) :=
  match syft.Metadata p with
  | syft.Apk value =>
      if negb (String.eqb (syft.OriginPackage value) "") then
        ret [ UpstreamPackage.mk (syft.OriginPackage value) "" ]
      else ret []
  | _ =>
      Warnf "unable to extract APK metadata for %s" [ArgPkg p] ;;;
      ret []
  end.

(** ** The dispatcher *)

Definition dataFromPkg (p : pkgPackage)
  : Log (MetadataType * MetadataValue * list UpstreamPackage.t) :=
  let mt := syft.MetadataType p in
  if String.eqb mt syft.DpkgMetadataType then
    upstreams <- dpkgDataFromPkg p ;;
    ret (UnsetMetadataType, NoMetadata, upstreams)
  else if String.eqb mt syft.RpmdbMetadataType then
    mu <- rpmdbDataFromPkg p ;;
    match fst mu with
    | Some m => ret (RpmdbMetadataType, RpmdbValue m, snd mu)
    | None => ret (UnsetMetadataType, NoMetadata, snd mu)
    end
  else if String.eqb mt syft.JavaMetadataType then
    om <- javaDataFromPkg p ;;
    match om with
    | Some m => ret (JavaMetadataType, JavaValue m, [])
    | None => ret (UnsetMetadataType, NoMetadata, [])
    end
  else if String.eqb mt syft.ApkMetadataType then
    upstreams <- apkDataFromPkg p ;;
    ret (UnsetMetadataType, NoMetadata, upstreams)
  else if String.eqb mt "" then
    let ty := syft.Type_ p in
    if String.eqb ty syft.ApkPkg then
      ret (UnsetMetadataType, NoMetadata, apkDataFromPURL (syft.PURL p))
    else if String.eqb ty syft.DebPkg then
      ret (UnsetMetadataType, NoMetadata, dpkgDataFromPURL (syft.PURL p))
    else if String.eqb ty syft.RpmPkg then
      mu <- rpmdbDataFromPURL (syft.PURL p) ;;
      match fst mu with
      | Some m => ret (RpmdbMetadataType, RpmdbValue m, snd mu)
      | None => ret (UnsetMetadataType, NoMetadata, snd mu)
      end
    else ret (UnsetMetadataType, NoMetadata, [])
  else ret (UnsetMetadataType, NoMetadata, []).

(** ** The builder and the catalog *)

Definition New (p : pkgPackage) : Log Package :=
  d <- dataFromPkg p ;;
  let '(metadataType, metadata, upstreams) := d in
  ret {| ID := syft.ID p;
         Name := syft.Name p;
         Version := syft.Version p;
         Locations := syft.Locations p;
         Licenses := syft.Licenses p;
         Language := syft.Language p;
         Type_ := syft.Type_ p;
         CPEs := syft.CPEs p;
         PURL := syft.PURL p;
         Upstreams := upstreams;
         MetadataType_ := metadataType;
         Metadata := metadata |}.

(** [FromCatalog], on the sequence [catalog.Sorted()] yields. *)
Fixpoint FromCatalog (sorted : list pkgPackage) : Log (list Package) :=
  match sorted with
  | [] => ret []
  | p :: rest =>
      q <- New p ;;
      result <- FromCatalog rest ;;
      ret (q :: result)
  end.

(** [ByID] returns a pointer to a copy of the package found, or nil. *)
Fixpoint ByID (id : string) (pkgs : list Package) : option Package :=
  match pkgs with
  | [] => None
  | p :: rest => if String.eqb (ID p) id then Some p else ByID id rest
  end.

(** ** Properties of the extractors *)

Lemma eqb_empty_false (s : string) : s <> "" -> String.eqb s "" = false.
Proof. intros H. now apply String.eqb_neq. Qed.

(** The composed version always holds the joining hyphen. *)
Lemma getNameAndELVersion_hyphen (s : string) :
  exists v r, snd (getNameAndELVersion s) = v +:+ "-" +:+ r.
Proof. unfold getNameAndELVersion. simpl. eauto. Qed.

Lemma append_hyphen_nonempty (v r : string) : v +:+ "-" +:+ r <> "".
Proof. destruct v; discriminate. Qed.

Lemma getNameAndELVersion_version_nonempty (s : string) :
  snd (getNameAndELVersion s) <> "".
Proof.
  destruct (getNameAndELVersion_hyphen s) as (v & r & ->).
  apply append_hyphen_nonempty.
Qed.

(** When the pattern does not match, the name is empty and the composed
    version is the lone hyphen. *)
Lemma getNameAndELVersion_no_match (s : string) :
  FindStringSubmatch rpmPackageNamePattern s = None ->
  getNameAndELVersion s = ("", "-").
Proof.
  intros H. unfold getNameAndELVersion, MatchCaptureGroups. rewrite H.
  reflexivity.
Qed.

#[local] Opaque getNameAndELVersion getPURLQualifiers Atoi.

(** C4: an RPM record whose source-RPM field parses to the record's own name
    yields no upstream package, also when the filename parses. *)
Theorem rpmdbDataFromPkg_self_reference (p : pkgPackage) (value : syft.RpmdbMetadata) :
  syft.Metadata p = syft.Rpmdb value ->
  fst (getNameAndELVersion (syft.SourceRpm value)) = syft.Name p ->
  snd (result (rpmdbDataFromPkg p)) = [].
Proof.
  intros Hm Hn. unfold rpmdbDataFromPkg. rewrite Hm.
  destruct (String.eqb (syft.SourceRpm value) ""); simpl; [reflexivity|].
  destruct (getNameAndELVersion (syft.SourceRpm value)) as [name version].
  simpl in Hn. subst name.
  destruct (String.eqb (syft.Name p) "" && String.eqb version ""); simpl;
    [reflexivity|].
  rewrite String.eqb_refl. reflexivity.
Qed.

(** C5: the kind the dispatcher returns and the fragment it returns agree: no
    fragment with the kind none, an rpmdb fragment with the kind rpmdb, a java
    fragment with the kind java. *)
Theorem dataFromPkg_kind_agrees (p : pkgPackage) :
  match result (dataFromPkg p) with
  | (UnsetMetadataType, metadata, _) => metadata = NoMetadata
  | (RpmdbMetadataType, metadata, _) => exists m, metadata = RpmdbValue m
  | (JavaMetadataType, metadata, _) => exists m, metadata = JavaValue m
  end.
Proof.
  unfold dataFromPkg.
  repeat match goal with
         | |- context [if String.eqb ?x ?y then _ else _] =>
             destruct (String.eqb x y)
         end;
    unfold result, bind;
    try destruct (dpkgDataFromPkg p) as [? ?];
    try destruct (apkDataFromPkg p) as [? ?];
    try destruct (javaDataFromPkg p) as [[?|] ?];
    try destruct (rpmdbDataFromPkg p) as [[[?|] ?] ?];
    try destruct (rpmdbDataFromPURL _) as [[[?|] ?] ?];
    simpl; eauto.
Qed.

(** C6: on the Package-URL path a non-empty epoch qualifier that is no integer
    yields no rpmdb fragment and one warning, and a non-empty epoch qualifier
    that is an integer yields the rpmdb fragment with that integer and no
    warning; either way the extractor returns a result. *)
Theorem rpmdbDataFromPURL_epoch (p : string) :
  getPURLQualifiers p !!! purlEpochQualifier <> "" ->
  match Atoi (getPURLQualifiers p !!! purlEpochQualifier) with
  | None =>
      fst (result (rpmdbDataFromPURL p)) = None /\
      logged (rpmdbDataFromPURL p) = [Warn "unable to parse RPM epoch=%q: %+v" []]
  | Some value =>
      fst (result (rpmdbDataFromPURL p)) = Some {| Epoch := Some value |} /\
      logged (rpmdbDataFromPURL p) = []
  end.
Proof.
  intros He. unfold rpmdbDataFromPURL.
  rewrite (eqb_empty_false _ He). simpl.
  destruct (Atoi _); simpl; split; reflexivity.
Qed.

(** C7: [ByID] returns the first package of the sequence with the identifier,
    and nil exactly when no package of the sequence has it. *)
Theorem ByID_first (id : string) (pkgs : list Package) :
  match ByID id pkgs with
  | Some p =>
      exists before after,
        pkgs = (before ++ p :: after)%list /\ ID p = id /\
        Forall (fun q => ID q <> id) before
  | None => Forall (fun q => ID q <> id) pkgs
  end.
Proof.
  induction pkgs as [|q rest IH]; simpl.
  - constructor.
  - destruct (String.eqb (ID q) id) eqn:E.
    + apply String.eqb_eq in E. exists [], rest. repeat split; [assumption|constructor].
    + apply String.eqb_neq in E. destruct (ByID id rest) as [p|].
      * destruct IH as (before & after & -> & Hid & Hb).
        exists (q :: before), after. repeat split; [assumption|].
        constructor; assumption.
      * constructor; assumption.
Qed.

(** C8: a Debian record with a non-empty source yields exactly the upstream
    package with that source and its source version; with an empty source it
    yields none. *)
Theorem dpkgDataFromPkg_upstreams (p : pkgPackage) (value : syft.DpkgMetadata) :
  syft.Metadata p = syft.Dpkg value ->
  (syft.Source value <> "" ->
   result (dpkgDataFromPkg p) =
     [UpstreamPackage.mk (syft.Source value) (syft.SourceVersion value)]) /\
  (syft.Source value = "" -> result (dpkgDataFromPkg p) = []).
Proof.
  intros Hm. unfold dpkgDataFromPkg. rewrite Hm. split; intros Hs.
  - rewrite (eqb_empty_false _ Hs). reflexivity.
  - rewrite Hs. reflexivity.
Qed.

(** The extractors that test the name itself never emit an empty one. *)
Lemma upstream_names_tested (p : pkgPackage) (purl : string) :
  Forall (fun u => UpstreamPackage.Name u <> "")
         (result (dpkgDataFromPkg p) ++ result (apkDataFromPkg p) ++
          apkDataFromPURL purl)%list.
Proof.
  unfold dpkgDataFromPkg, apkDataFromPkg, apkDataFromPURL.
  repeat (apply Forall_app; split).
  - destruct (syft.Metadata p) as [|value| | | |]; simpl; try constructor.
    destruct (String.eqb (syft.Source value) "") eqn:E; simpl; constructor;
      [now apply String.eqb_neq|constructor].
  - destruct (syft.Metadata p) as [| | | |value|]; simpl; try constructor.
    destruct (String.eqb (syft.OriginPackage value) "") eqn:E; simpl; constructor;
      [now apply String.eqb_neq|constructor].
  - destruct (String.eqb _ "") eqn:E; simpl; constructor;
      [now apply String.eqb_neq|constructor].
Qed.

(** C9: the composed version of [getNameAndELVersion] is never empty, since it
    holds the joining hyphen; hence [rpmdbDataFromPkg] never takes the branch
    that logs a failed parse of the source-RPM field. *)
Theorem rpmdbDataFromPkg_parse_warning_dead :
  (forall s, exists v r, snd (getNameAndELVersion s) = v +:+ "-" +:+ r) /\
  (forall s, snd (getNameAndELVersion s) <> "") /\
  (forall (p : pkgPackage) w,
     In w (logged (rpmdbDataFromPkg p)) ->
     format w <> "unable to extract name and version from SourceRPM=%q ").
Proof.
  split; [exact getNameAndELVersion_hyphen|].
  split; [exact getNameAndELVersion_version_nonempty|].
  intros p w. unfold rpmdbDataFromPkg.
  destruct (syft.Metadata p) as [| |value| | |];
    try (simpl; intros [<-|[]]; discriminate).
  destruct (String.eqb (syft.SourceRpm value) ""); simpl; [intros []|].
  pose proof (getNameAndELVersion_version_nonempty (syft.SourceRpm value)) as Hv.
  destruct (getNameAndELVersion (syft.SourceRpm value)) as [name version].
  simpl in Hv. rewrite (eqb_empty_false _ Hv), andb_false_r.
  destruct (negb (String.eqb name (syft.Name p))); simpl; intros [].
Qed.

(** C10: on the Package-URL path the upstream packages depend on the upstream
    qualifier alone and the rpmdb fragment on the epoch qualifier alone: a
    non-empty upstream qualifier yields its upstream package whatever the
    epoch qualifier is, and an epoch qualifier that is an integer yields its
    fragment whatever the upstream qualifier is. *)
Theorem rpmdbDataFromPURL_independent (p : string) :
  let upstream := getPURLQualifiers p !!! purlUpstreamQualifier in
  let epoch := getPURLQualifiers p !!! purlEpochQualifier in
  snd (result (rpmdbDataFromPURL p)) =
    (if String.eqb upstream "" then []
     else [UpstreamPackage.mk (fst (getNameAndELVersion upstream))
                              (snd (getNameAndELVersion upstream))]) /\
  fst (result (rpmdbDataFromPURL p)) =
    (if String.eqb epoch "" then None
     else match Atoi epoch with
          | Some value => Some {| Epoch := Some value |}
          | None => None
          end).
Proof.
  unfold rpmdbDataFromPURL. simpl. split.
  - destruct (String.eqb (getPURLQualifiers p !!! purlEpochQualifier) ""); simpl.
    + destruct (String.eqb _ ""); simpl; [reflexivity|].
      now destruct (getNameAndELVersion _).
    + destruct (Atoi _); simpl;
        (destruct (String.eqb _ ""); simpl; [reflexivity|]);
        now destruct (getNameAndELVersion _).
  - destruct (String.eqb (getPURLQualifiers p !!! purlEpochQualifier) ""); simpl;
      [reflexivity|].
    destruct (Atoi _); reflexivity.
Qed.

(** C3: a record without typed metadata, of type RPM, carrying the Package URL
    of the util-linux-ng example yields the kind rpmdb with epoch 4 and the one
    upstream package util-linux-ng 2.17.2-12.28.el6_9.2. *)
Theorem dataFromPkg_rpm_purl_fallback (p : pkgPackage) :
  syft.MetadataType p = "" ->
  syft.Type_ p = syft.RpmPkg ->
  syft.PURL p = util_linux_purl ->
  result (dataFromPkg p) =
    (RpmdbMetadataType, RpmdbValue {| Epoch := Some 4%Z |},
     [UpstreamPackage.mk "util-linux-ng" "2.17.2-12.28.el6_9.2"]).
Proof.
  intros Hm Ht Hp. unfold dataFromPkg. rewrite Hm, Ht, Hp.
  vm_compute. reflexivity.
Qed.

#[local] Transparent getNameAndELVersion getPURLQualifiers Atoi.

End Normalize.


Arguments ArgStr {Location CPE} s.
Arguments ArgPkg {Location CPE} p.
Arguments Warn {Location CPE} format args.
Arguments format {Location CPE} _.
Arguments args {Location CPE} _.
Arguments ret {Location CPE A} x.
Arguments bind {Location CPE A B} m k.
Arguments result {Location CPE A} m.
Arguments logged {Location CPE A} m.
Arguments dpkgDataFromPkg {Location CPE} p.
Arguments rpmdbDataFromPkg {Location CPE} p.
Arguments javaDataFromPkg {Location CPE} p.
Arguments apkDataFromPkg {Location CPE} p.
Arguments dataFromPkg {Location CPE} p.
Arguments New {Location CPE} p.
Arguments FromCatalog {Location CPE} sorted.
Arguments ByID {Location CPE} id pkgs.

(** ** Properties of the matcher *)

Lemma re_nested_ind (P : re -> Prop) :
  (forall f, P (Chr f)) -> (forall f, P (Star f)) -> (forall f, P (Plus f)) ->
  (forall i body, Forall P body -> P (Grp i body)) ->
  forall r, P r.
Proof.
  intros HC HS HP HG.
  fix IH 1. intros [f|f|f|i body]; [apply HC|apply HS|apply HP|].
  apply HG. induction body as [|r body IHb]; constructor; [apply IH|exact IHb].
Qed.

Lemma exec_Grp i body k s pos c :
  exec (Grp i body) k s pos c =
  exec_seq body (fun s' pos' c' => k s' pos' (<[i := (pos, pos')]> c')) s pos c.
Proof. reflexivity. Qed.

Lemma lang_Grp i body l : lang (Grp i body) l = lang_seq body l.
Proof. reflexivity. Qed.

Lemma star_sound f k s pos c res :
  star f k s pos c = Some res ->
  exists l1 l2, s = (l1 ++ l2)%list /\ Forall (fun a => f a = true) l1 /\
                k l2 (pos + length l1) c = Some res.
Proof.
  revert pos. induction s as [|a s IH]; intros pos H; simpl in H.
  - exists [], []. rewrite Nat.add_0_r. auto.
  - destruct (f a) eqn:Fa.
    + destruct (star f k s (S pos) c) as [r|] eqn:E.
      * injection H as ->. destruct (IH _ E) as (l1 & l2 & -> & Hl & Hk).
        exists (a :: l1), l2.
        replace (pos + length (a :: l1)) with (S pos + length l1) by (simpl; lia).
        repeat split; [constructor|]; assumption.
      * exists [], (a :: s). rewrite Nat.add_0_r. auto.
    + exists [], (a :: s). rewrite Nat.add_0_r. auto.
Qed.

Lemma exec_sound r : forall k s pos c res,
  exec r k s pos c = Some res ->
  exists l1 l2 c', s = (l1 ++ l2)%list /\ lang r l1 /\
                   k l2 (pos + length l1) c' = Some res.
Proof.
  induction r as [f|f|f|i body IH] using re_nested_ind; intros k s pos c res H.
  - simpl in H. destruct s as [|a s]; [discriminate|].
    destruct (f a) eqn:Fa; [|discriminate].
    exists [a], s, c. simpl. rewrite Nat.add_1_r. eauto.
  - apply star_sound in H as (l1 & l2 & -> & Hl & Hk). exists l1, l2, c. auto.
  - simpl in H. destruct s as [|a s]; [discriminate|].
    destruct (f a) eqn:Fa; [|discriminate].
    apply star_sound in H as (l1 & l2 & -> & Hl & Hk).
    exists (a :: l1), l2, c.
    replace (pos + length (a :: l1)) with (S pos + length l1) by (simpl; lia).
    repeat split; [discriminate|constructor|]; assumption.
  - rewrite exec_Grp in H.
    set (k' := fun s' pos' c' => k s' pos' (<[i := (pos, pos')]> c')) in H.
    assert (Hseq : forall k0 s0 pos0 c0,
               exec_seq body k0 s0 pos0 c0 = Some res ->
               exists l1 l2 c', s0 = (l1 ++ l2)%list /\ lang_seq body l1 /\
                                k0 l2 (pos0 + length l1) c' = Some res).
    { clear H k'. induction IH as [|r body Hr _ IHb]; intros k0 s0 pos0 c0 H.
      - exists [], s0, c0. rewrite Nat.add_0_r.
        split; [reflexivity|]. split; [reflexivity|exact H].
      - simpl in H. apply Hr in H as (l1 & l2 & c1 & -> & Hl1 & H).
        apply IHb in H as (m1 & m2 & c2 & -> & Hm1 & H).
        exists (l1 ++ m1)%list, m2, c2. rewrite length_app, Nat.add_assoc.
        rewrite <- app_assoc. repeat split; [|assumption]. simpl. eauto. }
    apply Hseq in H as (l1 & l2 & c' & -> & Hl & H). subst k'. simpl in H.
    exists l1, l2, (<[i := (pos, pos + length l1)]> c').
    split; [reflexivity|]. split; [exact Hl|exact H].
Qed.

Lemma star_stop f k s : forall pos c,
  (forall l2 l3, s = (l2 ++ l3)%list -> l2 <> [] ->
                 Forall (fun a => f a = true) l2 ->
                 k l3 (pos + length l2) c = None) ->
  star f k s pos c = k s pos c.
Proof.
  induction s as [|a s IH]; intros pos c H; simpl; [reflexivity|].
  destruct (f a) eqn:Fa; [|reflexivity].
  rewrite IH.
  - pose proof (H [a] s eq_refl ltac:(discriminate)
                  ltac:(constructor; [exact Fa|constructor])) as E.
    simpl in E. rewrite Nat.add_1_r in E. now rewrite E.
  - intros l2 l3 -> Hne Hl2.
    replace (S pos + length l2) with (pos + length (a :: l2)) by (simpl; lia).
    apply H; [reflexivity|discriminate|constructor; assumption].
Qed.

Lemma star_greedy f k l rest res : forall pos c,
  Forall (fun a => f a = true) l ->
  (forall l2 l3, rest = (l2 ++ l3)%list -> l2 <> [] ->
                 Forall (fun a => f a = true) l2 ->
                 k l3 (pos + length l + length l2) c = None) ->
  k rest (pos + length l) c = Some res ->
  star f k (l ++ rest) pos c = Some res.
Proof.
  induction l as [|a l IH]; intros pos c Hl Hfail Hk.
  - replace (pos + length (@nil ascii)) with pos in Hk by (simpl; lia).
    simpl. rewrite star_stop; [assumption|].
    intros l2 l3 E Hne Hl2.
    replace (pos + length l2) with (pos + length (@nil ascii) + length l2)
      by (simpl; lia).
    now apply Hfail.
  - inversion Hl as [|? ? Fa Hl']; subst. simpl. rewrite Fa.
    rewrite (IH (S pos) c Hl'); [reflexivity| |].
    + intros l2 l3 E Hne Hl2.
      replace (S pos + length l) with (pos + length (a :: l)) by (simpl; lia).
      now apply Hfail.
    + replace (S pos + length l) with (pos + length (a :: l)) by (simpl; lia).
      exact Hk.
Qed.

(** The last occurrence of a separator splits a text in one way only. *)
Lemma last_split_unique (f : cset) (sep : ascii) (x x' y y' : list ascii) :
  f sep = false ->
  Forall (fun a => f a = true) y -> Forall (fun a => f a = true) y' ->
  (x ++ sep :: y = x' ++ sep :: y')%list -> x = x' /\ y = y'.
Proof.
  intros Hs Hy Hy'. revert x'.
  induction x as [|a x IH]; intros [|a' x'] E; simpl in E.
  - injection E as ->. auto.
  - injection E as <- ->. apply Forall_app in Hy as [_ Hy].
    inversion Hy; congruence.
  - injection E as -> <-. apply Forall_app in Hy' as [_ Hy'].
    inversion Hy'; congruence.
  - injection E as -> E. destruct (IH _ E) as [-> ->]. auto.
Qed.

Lemma hyphens_app l1 l2 : hyphens (l1 ++ l2) = hyphens l1 + hyphens l2.
Proof. apply count_occ_app. Qed.

Lemma hyphens_cons_hyphen l : hyphens ("-"%char :: l) = S (hyphens l).
Proof. reflexivity. Qed.

Lemma hyphens_free l : ~ In "-"%char l -> hyphens l = 0.
Proof. apply count_occ_not_In. Qed.

Lemma alpha_not_dot a : alpha a = true -> not_dot a = true.
Proof.
  unfold not_dot. destruct (Ascii.eqb a ".") eqn:E; [|reflexivity].
  apply Ascii.eqb_eq in E. subst a. discriminate.
Qed.

Lemma exec_seq_sound body : forall k s pos c res,
  exec_seq body k s pos c = Some res ->
  exists l1 l2 c', s = (l1 ++ l2)%list /\ lang_seq body l1 /\
                   k l2 (pos + length l1) c' = Some res.
Proof.
  induction body as [|r body IH]; intros k s pos c res H.
  - exists [], s, c. rewrite Nat.add_0_r.
    split; [reflexivity|]. split; [reflexivity|exact H].
  - simpl in H. apply exec_sound in H as (l1 & l2 & c1 & -> & Hl1 & H).
    apply IH in H as (m1 & m2 & c2 & -> & Hm1 & H).
    exists (l1 ++ m1)%list, m2, c2. rewrite length_app, Nat.add_assoc.
    rewrite <- app_assoc. repeat split; [|assumption]. simpl. eauto.
Qed.

Lemma exec_seq_whole body s pos c res :
  exec_seq body whole s pos c = Some res -> lang_seq body s.
Proof.
  intros H. apply exec_seq_sound in H as (l1 & l2 & c' & -> & Hl & H).
  unfold whole, at_end in H. destruct l2; [|discriminate].
  now rewrite app_nil_r.
Qed.

(** A match is a text of the language of the pattern. *)
Lemma FindStringSubmatch_sound rx s ms :
  FindStringSubmatch rx s = Some ms -> lang_seq (nodes rx) (bytes s).
Proof.
  unfold FindStringSubmatch. rewrite exec_Grp.
  destruct (exec_seq _ _ _ _ _) eqn:E; [|discriminate]. intros _.
  exact (exec_seq_whole _ _ _ _ _ E).
Qed.

Lemma lit_eq a b : lit a b = true -> b = a.
Proof. unfold lit. intros H. apply Ascii.eqb_eq in H. congruence. Qed.

Lemma lang_tail3 l :
  lang_seq tail3 l ->
  exists a0 a, l = text3 a0 a /\ alpha a0 = true /\
               a <> [] /\ Forall (fun b => not_dot b = true) a.
Proof.
  intros (l1 & t1 & -> & (d & -> & Hd) & l2 & t2 & -> & Harch &
          l3 & t3 & -> & Hrpm & ->).
  apply lit_eq in Hd as ->.
  destruct Harch as (m1 & m2 & -> & (a0 & -> & Ha0) & m3 & m4 & -> & (Hne & Ha) & ->).
  destruct Hrpm as (x1 & y1 & -> & (c1 & -> & H1) & x2 & y2 & -> & (c2 & -> & H2) &
                    x3 & y3 & -> & (c3 & -> & H3) & x4 & y4 & -> & (c4 & -> & H4) & ->).
  apply lit_eq in H1 as ->, H2 as ->, H3 as ->, H4 as ->.
  exists a0, m3. unfold text3. rewrite !app_nil_r. simpl. auto.
Qed.

Lemma lang_tail2 l :
  lang_seq tail2 l ->
  exists r t, l = ("-"%char :: r ++ t)%list /\
              Forall (fun b => dot b = true) r /\ lang_seq tail3 t.
Proof.
  intros (l1 & t1 & -> & (d & -> & Hd) & l2 & t2 & -> & Hr & Ht).
  apply lit_eq in Hd as ->.
  destruct Hr as (m1 & m2 & -> & Hm & ->). rewrite app_nil_r. simpl. eauto.
Qed.

Lemma lang_tail1 l :
  lang_seq tail1 l ->
  exists v t, l = ("-"%char :: v ++ t)%list /\
              Forall (fun b => dot b = true) v /\ lang_seq tail2 t.
Proof.
  intros (l1 & t1 & -> & (d & -> & Hd) & l2 & t2 & -> & Hr & Ht).
  apply lit_eq in Hd as ->.
  destruct Hr as (m1 & m2 & -> & Hm & ->). rewrite app_nil_r. simpl. eauto.
Qed.

(** The language of the pattern is the grammar of the filenames. *)
Lemma lang_nodes l :
  lang_seq (nodes rpmPackageNamePattern) l -> rpm_filename l.
Proof.
  change (nodes rpmPackageNamePattern) with (Grp 1 [Star dot] :: tail1).
  intros (n' & t & -> & (n & m2 & -> & Hn & ->) & H). rewrite app_nil_r.
  apply lang_tail1 in H as (v & t1 & -> & Hv & H).
  apply lang_tail2 in H as (r & t2 & -> & Hr & H).
  apply lang_tail3 in H as (a0 & a & -> & Ha0 & Hne & Ha).
  exists n, v, r, a0, a. unfold text1, text2. auto 10.
Qed.

Lemma arch_unique (x x' a a' : list ascii) (a0 a0' : ascii) :
  alpha a0 = true -> alpha a0' = true ->
  Forall (fun b => not_dot b = true) a -> Forall (fun b => not_dot b = true) a' ->
  (x ++ "."%char :: a0 :: a ++ rpm_suffix = x' ++ "."%char :: a0' :: a' ++ rpm_suffix)%list ->
  x = x'.
Proof.
  intros H0 H0' Ha Ha' E.
  change (x ++ "."%char :: a0 :: a ++ rpm_suffix)%list
    with (x ++ ("."%char :: a0 :: a) ++ rpm_suffix)%list in E.
  change (x' ++ "."%char :: a0' :: a' ++ rpm_suffix)%list
    with (x' ++ ("."%char :: a0' :: a') ++ rpm_suffix)%list in E.
  rewrite !app_assoc in E. apply app_inv_tail in E.
  apply (last_split_unique not_dot) in E as [E _]; auto.
  - constructor; [now apply alpha_not_dot|assumption].
  - constructor; [now apply alpha_not_dot|assumption].
Qed.

Lemma slice_mid (pre l post t : list ascii) (b e : nat) :
  t = (pre ++ l ++ post)%list -> b = length pre -> e = b + length l ->
  slice t b e = l.
Proof.
  intros -> -> ->. unfold slice. rewrite drop_app_length.
  replace (length pre + length l - length pre) with (length l) by lia.
  apply take_app_length.
Qed.

Ltac lengths :=
  repeat first [rewrite length_app
               | progress cbn [length bytes list_ascii_of_string]];
  lia.

Lemma exec_lit x k s pos c :
  exec (Chr (lit x)) k (x :: s) pos c = k s (S pos) c.
Proof. simpl. unfold lit. now rewrite Ascii.eqb_refl. Qed.

Section Parse.
Variables (n v r a : list ascii) (a0 : ascii).
Hypothesis Hn : Forall (fun b => dot b = true) n.
Hypothesis Hv : Forall (fun b => dot b = true) v.
Hypothesis Hr : Forall (fun b => dot b = true) r.
Hypothesis Hv' : ~ In "-"%char v.
Hypothesis Hr' : ~ In "-"%char r.
Hypothesis Ha0 : alpha a0 = true.
Hypothesis Hne : a <> [].
Hypothesis Ha : Forall (fun b => not_dot b = true) a.

Lemma fail3 l2 l3 :
  (text3 a0 a) = (l2 ++ l3)%list -> l2 <> [] -> lang_seq tail3 l3 -> False.
Proof.
  intros E Hl2 H. apply lang_tail3 in H as (a0' & a' & -> & H0' & _ & Ha').
  unfold text3 in E. apply (arch_unique []) in E; auto.
Qed.

Lemma fail2 l2 l3 :
  (text2 r a0 a) = (l2 ++ l3)%list -> l2 <> [] -> lang_seq tail2 l3 -> False.
Proof.
  intros E Hl2 H. apply lang_tail2 in H as (r' & t & -> & _ & H).
  apply lang_tail3 in H as (a0' & a' & -> & H0' & _ & Ha').
  unfold text2, text3 in E.
  change ("-"%char :: r ++ "."%char :: a0 :: a ++ rpm_suffix)%list
    with (("-"%char :: r) ++ "."%char :: a0 :: a ++ rpm_suffix)%list in E.
  change (l2 ++ "-"%char :: r' ++ "."%char :: a0' :: a' ++ rpm_suffix)%list
    with (l2 ++ ("-"%char :: r') ++ "."%char :: a0' :: a' ++ rpm_suffix)%list in E.
  rewrite (app_assoc l2) in E. apply arch_unique in E; auto.
  destruct l2 as [|c l2]; [congruence|]. injection E as _ E.
  apply Hr'. rewrite E. apply in_or_app. right. left. reflexivity.
Qed.

Lemma fail1 l2 l3 :
  (text1 v r a0 a) = (l2 ++ l3)%list -> l2 <> [] -> lang_seq tail1 l3 -> False.
Proof.
  intros E Hl2 H. apply lang_tail1 in H as (v' & t & -> & _ & H).
  apply lang_tail2 in H as (r' & t' & -> & _ & H).
  apply lang_tail3 in H as (a0' & a' & -> & H0' & _ & Ha').
  unfold text1, text2, text3 in E.
  change ("-"%char :: v ++ "-"%char :: r ++ "."%char :: a0 :: a ++ rpm_suffix)%list
    with (("-"%char :: v) ++ ("-"%char :: r) ++ "."%char :: a0 :: a ++ rpm_suffix)%list in E.
  change (l2 ++ "-"%char :: v' ++ "-"%char :: r' ++ "."%char :: a0' :: a' ++ rpm_suffix)%list
    with (l2 ++ ("-"%char :: v') ++ ("-"%char :: r') ++ "."%char :: a0' :: a' ++ rpm_suffix)%list in E.
  rewrite !app_assoc in E. apply arch_unique in E; auto.
  destruct l2 as [|c l2]; [congruence|]. injection E as <- E.
  apply (f_equal hyphens) in E.
  rewrite !hyphens_app, !hyphens_cons_hyphen, (hyphens_free v), (hyphens_free r) in E
    by assumption.
  lia.
Qed.

Ltac no_longer_match fail :=
  let l2 := fresh "l2" in let l3 := fresh "l3" in
  let E := fresh "E" in let Hl2 := fresh "Hl2" in let Ex := fresh "Ex" in
  intros l2 l3 E Hl2 _;
  match goal with
  | |- ?x = None => destruct x eqn:Ex; [exfalso|reflexivity]
  end;
  apply exec_seq_whole in Ex; exact (fail l2 l3 E Hl2 Ex).

Lemma exec_tail3 pos c :
  exec_seq tail3 whole (text3 a0 a) pos c =
  Some (<[0 := (0, pos + length a + 6)]>
          (<[5 := (pos + length a + 2, pos + length a + 6)]>
             (<[4 := (S pos, pos + length a + 2)]> c))).
Proof.
  unfold text3.
  change (exec_seq tail3 whole) with
    (exec (Chr (lit ".")) (exec (Grp 4 [Chr alpha; Plus not_dot])
       (exec_seq [Grp 5 [Chr (lit "."); Chr (lit "r"); Chr (lit "p"); Chr (lit "m")]]
                 whole))).
  rewrite exec_lit, exec_Grp.
  change (exec_seq [Chr alpha; Plus not_dot] ?k) with
    (exec (Chr alpha) (exec (Plus not_dot) k)).
  destruct a as [|a1 a']; [congruence|].
  inversion Ha as [|? ? Ha1 Ha']; subst.
  cbn [exec app]. rewrite Ha0, Ha1.
  apply star_greedy; [exact Ha'| |].
  - intros l2 l3 E Hl2 Hd. destruct l2 as [|d l2]; [congruence|].
    injection E as <- _. inversion Hd; discriminate.
  - cbn. repeat f_equal; lia.
Qed.

Lemma exec_tail2 pos c res :
  exec_seq tail3 whole (text3 a0 a) (S pos + length r)
           (<[3 := (S pos, S pos + length r)]> c) = Some res ->
  exec_seq tail2 whole (text2 r a0 a) pos c = Some res.
Proof.
  intros H. unfold text2.
  change (exec_seq tail2 whole) with
    (exec (Chr (lit "-")) (exec (Grp 3 [Star dot]) (exec_seq tail3 whole))).
  rewrite exec_lit, exec_Grp. change (exec_seq [Star dot] ?k) with (star dot k).
  apply star_greedy; [exact Hr| |exact H]. no_longer_match fail3.
Qed.

Lemma exec_tail1 pos c res :
  exec_seq tail2 whole (text2 r a0 a) (S pos + length v)
           (<[2 := (S pos, S pos + length v)]> c) = Some res ->
  exec_seq tail1 whole (text1 v r a0 a) pos c = Some res.
Proof.
  intros H. unfold text1.
  change (exec_seq tail1 whole) with
    (exec (Chr (lit "-")) (exec (Grp 2 [Star dot]) (exec_seq tail2 whole))).
  rewrite exec_lit, exec_Grp. change (exec_seq [Star dot] ?k) with (star dot k).
  apply star_greedy; [exact Hv| |exact H]. no_longer_match fail2.
Qed.

Lemma exec_nodes res :
  exec_seq tail1 whole (text1 v r a0 a) (length n) (<[1 := (0, length n)]> ∅) = Some res ->
  exec_seq (nodes rpmPackageNamePattern) whole (n ++ (text1 v r a0 a))%list 0 ∅ = Some res.
Proof.
  intros H.
  change (exec_seq (nodes rpmPackageNamePattern) whole)
    with (exec (Grp 1 [Star dot]) (exec_seq tail1 whole)).
  rewrite exec_Grp. change (exec_seq [Star dot] ?k) with (star dot k).
  apply star_greedy; [exact Hn| |exact H]. no_longer_match fail1.
Qed.

Lemma submatch_pattern :
  FindStringSubmatch rpmPackageNamePattern (str (n ++ (text1 v r a0 a))) =
  Some [str (n ++ (text1 v r a0 a)); str n; str v; str r; str (a0 :: a); ".rpm"].
Proof.
  unfold FindStringSubmatch, bytes, str.
  rewrite list_ascii_of_string_of_list_ascii, exec_Grp. fold whole.
  erewrite exec_nodes; [|apply exec_tail1, exec_tail2, exec_tail3].
  cbn [SubexpNames rpmPackageNamePattern length seq map].
  repeat (rewrite lookup_insert_eq || rewrite lookup_insert_ne by lia).
  unfold text1, text2, text3, rpm_suffix.
  set (t3 := ("."%char :: a0 :: a ++ bytes ".rpm")%list).
  set (t2 := ("-"%char :: r ++ t3)%list).
  set (t1 := ("-"%char :: v ++ t2)%list).
  repeat f_equal.
  - apply (slice_mid [] (n ++ t1) []);
      [now rewrite app_nil_r|reflexivity|subst t1 t2 t3; lengths].
  - apply (slice_mid [] n t1); [reflexivity|reflexivity|lengths].
  - apply (slice_mid (n ++ ["-"%char]) v t2);
      [subst t1; now rewrite <- app_assoc|lengths..].
  - apply (slice_mid (n ++ "-"%char :: v ++ ["-"%char]) r t3); [|lengths..].
    subst t1 t2. rewrite <- app_assoc. simpl. now rewrite <- app_assoc.
  - apply (slice_mid (n ++ "-"%char :: v ++ "-"%char :: r ++ ["."%char])
                     (a0 :: a) (bytes ".rpm")); [|lengths..].
    subst t1 t2 t3. rewrite <- app_assoc. simpl. rewrite <- app_assoc. simpl.
    now rewrite <- app_assoc.
  - rewrite (slice_mid (n ++ "-"%char :: v ++ "-"%char :: r ++ "."%char :: a0 :: a)
                       (bytes ".rpm") []); [reflexivity| |lengths..].
    subst t1 t2 t3. rewrite <- app_assoc. simpl. rewrite <- app_assoc. simpl.
    now rewrite <- app_assoc.
Qed.

End Parse.

Lemma bytes_append (s1 s2 : string) : bytes (s1 +:+ s2) = (bytes s1 ++ bytes s2)%list.
Proof. induction s1 as [|c s1 IH]; simpl; [reflexivity|]. unfold bytes in *. simpl. now rewrite IH. Qed.

Lemma str_bytes (s : string) : str (bytes s) = s.
Proof. apply string_of_list_ascii_of_string. Qed.

Lemma groups_lookup (m0 m1 m2 m3 m4 m5 : string) :
  let g : gmap string string :=
    list_to_map (named (zip (SubexpNames rpmPackageNamePattern) [m0; m1; m2; m3; m4; m5])) in
  g !!! "name" = m1 /\ g !!! "version" = m2 /\ g !!! "release" = m3.
Proof. repeat split; reflexivity. Qed.

Lemma getNameAndELVersion_parses (name version release arch : string) :
  one_line name -> one_line version -> one_line release ->
  no_hyphen version -> no_hyphen release -> arch_token arch ->
  getNameAndELVersion
    (name +:+ "-" +:+ version +:+ "-" +:+ release +:+ "." +:+ arch +:+ ".rpm") =
  (name, version +:+ "-" +:+ release).
Proof.
  intros Hn Hv Hr Hv' Hr' (a0 & a & Earch & Ha0 & Hne & Ha).
  pose proof (submatch_pattern _ _ _ _ _ Hn Hv Hr Hv' Hr' Ha0 Hne Ha) as H.
  set (s := name +:+ _).
  assert (Es : s = str (bytes name ++ text1 (bytes version) (bytes release) a0 a)).
  { rewrite <- (str_bytes s). f_equal. subst s.
    rewrite !bytes_append, Earch. reflexivity. }
  unfold getNameAndELVersion, MatchCaptureGroups. rewrite Es, H.
  match goal with
  | |- context [list_to_map (named (zip _ [?m0; ?m1; ?m2; ?m3; ?m4; ?m5]))] =>
      destruct (groups_lookup m0 m1 m2 m3 m4 m5) as (-> & -> & ->)
  end.
  now rewrite !str_bytes.
Qed.


(** A text outside the grammar of the pattern yields the empty name and the
    lone hyphen as composed version. *)
Lemma getNameAndELVersion_unmatched (s : string) :
  ~ rpm_filename (bytes s) -> getNameAndELVersion s = ("", "-").
Proof.
  intros H. apply getNameAndELVersion_no_match.
  destruct (FindStringSubmatch rpmPackageNamePattern s) as [ms|] eqn:E;
    [|reflexivity].
  exfalso. apply H. eapply lang_nodes, FindStringSubmatch_sound, E.
Qed.

Lemma rpm_filename_suffix (l : list ascii) :
  rpm_filename l -> exists x, l = (x ++ rpm_suffix)%list.
Proof.
  intros (n & v & r & a0 & a & -> & _).
  exists (n ++ "-"%char :: v ++ "-"%char :: r ++ "."%char :: a0 :: a)%list.
  unfold text1, text2, text3.
  rewrite <- app_assoc. simpl. rewrite <- app_assoc. simpl.
  now rewrite <- app_assoc.
Qed.

(** ** Every text of the grammar is parsed *)

Lemma last_hyphen (l : list ascii) :
  In "-"%char l -> exists x y, l = (x ++ "-"%char :: y)%list /\ ~ In "-"%char y.
Proof.
  induction l as [|a l IH]; intros H; [destruct H|].
  destruct (in_dec ascii_dec "-"%char l) as [Hl|Hl].
  - destruct (IH Hl) as (x & y & -> & Hy). now exists (a :: x), y.
  - destruct H as [->|H]; [|contradiction]. now exists [], l.
Qed.

Lemma dot_hyphen : dot "-"%char = true.
Proof. reflexivity. Qed.

(** A text of the grammar splits at its last two hyphens before the arch. *)
Lemma rpm_filename_canonical (l : list ascii) :
  rpm_filename l ->
  exists n v r a0 a,
    l = (n ++ text1 v r a0 a)%list /\
    Forall (fun b => dot b = true) n /\ Forall (fun b => dot b = true) v /\
    Forall (fun b => dot b = true) r /\
    ~ In "-"%char v /\ ~ In "-"%char r /\
    alpha a0 = true /\ a <> [] /\ Forall (fun b => not_dot b = true) a.
Proof.
  intros (n & v & r & a0 & a & -> & Hn & Hv & Hr & Ha0 & Hne & Ha).
  set (X := (n ++ "-"%char :: v ++ "-"%char :: r)%list).
  assert (HX : Forall (fun b => dot b = true) X).
  { subst X. apply Forall_app; split; [assumption|].
    constructor; [reflexivity|]. apply Forall_app; split; [assumption|].
    constructor; [reflexivity|assumption]. }
  assert (H2 : 2 <= hyphens X).
  { subst X. rewrite hyphens_app, hyphens_cons_hyphen, hyphens_app,
      hyphens_cons_hyphen. lia. }
  destruct (last_hyphen X) as (x & r' & EX & Hr').
  { apply (count_occ_In ascii_dec). unfold hyphens in H2. lia. }
  destruct (last_hyphen x) as (n' & v' & Ex & Hv').
  { apply (count_occ_In ascii_dec). rewrite EX in H2.
    rewrite hyphens_app, hyphens_cons_hyphen, (hyphens_free r') in H2
      by assumption.
    unfold hyphens in H2. lia. }
  rewrite EX, Ex in HX.
  apply Forall_app in HX as [HX Hr1]. apply Forall_app in HX as [Hn1 Hv1].
  apply Forall_inv_tail in Hr1, Hv1.
  exists n', v', r', a0, a. repeat split; try assumption.
  unfold text1, text2.
  transitivity (X ++ text3 a0 a)%list.
  - subst X. rewrite <- app_assoc. simpl. now rewrite <- app_assoc.
  - rewrite EX, Ex. rewrite <- app_assoc. simpl. rewrite <- app_assoc. reflexivity.
Qed.

(** On every text of the grammar [getNameAndELVersion] returns the name and the
    version joined to the release of a decomposition of the text. *)
Lemma getNameAndELVersion_matched (s : string) :
  rpm_filename (bytes s) ->
  exists name version release arch,
    s = name +:+ "-" +:+ version +:+ "-" +:+ release +:+ "." +:+ arch +:+ ".rpm" /\
    arch_token arch /\
    getNameAndELVersion s = (name, version +:+ "-" +:+ release).
Proof.
  intros H. apply rpm_filename_canonical in H
    as (n & v & r & a0 & a & E & Hn & Hv & Hr & Hv' & Hr' & Ha0 & Hne & Ha).
  assert (Harch : arch_token (str (a0 :: a))).
  { exists a0, a. unfold bytes, str.
    rewrite list_ascii_of_string_of_list_ascii. auto. }
  assert (Es : s = str n +:+ "-" +:+ str v +:+ "-" +:+ str r +:+ "." +:+
                   str (a0 :: a) +:+ ".rpm").
  { rewrite <- (str_bytes s), E. rewrite <- (str_bytes (_ +:+ _)). f_equal.
    rewrite !bytes_append. unfold bytes at 1 3 5 7, str.
    rewrite !list_ascii_of_string_of_list_ascii. reflexivity. }
  exists (str n), (str v), (str r), (str (a0 :: a)).
  split; [exact Es|]. split; [exact Harch|]. rewrite Es.
  apply getNameAndELVersion_parses; try assumption;
    unfold one_line, no_hyphen, bytes, str;
    rewrite list_ascii_of_string_of_list_ascii; assumption.
Qed.

Example getNameAndELVersion_parses_epoch :
  getNameAndELVersion "util-linux-ng-4:2.17.2-12.28.el6_9.2.src.rpm" =
    ("util-linux-ng", "4:2.17.2-12.28.el6_9.2").
Proof.
  apply (getNameAndELVersion_parses "util-linux-ng" "4:2.17.2" "12.28.el6_9.2" "src");
    unfold one_line, no_hyphen, arch_token; simpl.
  1-3: repeat constructor.
  1-2: intros H; repeat (destruct H as [H|H]; [discriminate|]); exact H.
  exists "s"%char, (bytes "rc").
  split; [reflexivity|]. split; [reflexivity|].
  split; [discriminate|repeat constructor].
Qed.

(** ** The claims at concrete inputs *)

(** C1: [getNameAndELVersion] on a source-RPM filename without its [.rpm]
    suffix, a text outside the grammar: the name is empty but the composed
    version is the hyphen, not the empty string; on the filename with the
    suffix the name and the version joined to the release come back. *)
Theorem getNameAndELVersion_unmatched_hyphen :
  ~ rpm_filename (bytes "util-linux-ng-2.17.2-12.28.el6_9.2.src") /\
  getNameAndELVersion "util-linux-ng-2.17.2-12.28.el6_9.2.src" = ("", "-") /\
  getNameAndELVersion "util-linux-ng-2.17.2-12.28.el6_9.2.src.rpm" =
    ("util-linux-ng", "2.17.2-12.28.el6_9.2").
Proof.
  split; [|split; vm_compute; reflexivity].
  intros H. apply rpm_filename_suffix in H as (x & E).
  apply (f_equal (@rev ascii)) in E. rewrite rev_app_distr in E.
  discriminate E.
Qed.

(** C2: the RPM extractor on a record whose source-RPM field is no source-RPM
    filename emits an upstream package with the empty name, on the typed
    path and on the Package-URL path alike. *)
Theorem rpmdbDataFromPkg_emits_empty_name :
  result (rpmdbDataFromPkg odd_source_rpm) =
    (None, [UpstreamPackage.mk "" "-"]) /\
  snd (result (dataFromPkg odd_source_rpm)) =
    [UpstreamPackage.mk "" "-"] /\
  snd (result (rpmdbDataFromPURL unit unit "pkg:rpm/libfoo@1.0?upstream=libfoo.tar.gz")) =
    [UpstreamPackage.mk "" "-"].
Proof. repeat split; vm_compute; reflexivity. Qed.

Lemma dataFromPkg_rpm_purl_fallback_witness :
  result (dataFromPkg util_linux_pkg) =
    (RpmdbMetadataType, RpmdbValue {| Epoch := Some 4%Z |},
     [UpstreamPackage.mk "util-linux-ng" "2.17.2-12.28.el6_9.2"]).
Proof.
  apply (dataFromPkg_rpm_purl_fallback unit unit util_linux_pkg); reflexivity.
Defined.

Lemma rpmdbDataFromPkg_self_reference_witness :
  fst (getNameAndELVersion "zlib-1.2.11-17.el8.src.rpm") = "zlib" /\
  snd (result (rpmdbDataFromPkg self_built_rpm)) = [].
Proof.
  split; [vm_compute; reflexivity|].
  apply (rpmdbDataFromPkg_self_reference unit unit self_built_rpm
           {| syft.SourceRpm := "zlib-1.2.11-17.el8.src.rpm"; syft.Epoch := None |});
    [reflexivity|vm_compute; reflexivity].
Defined.

Lemma rpmdbDataFromPURL_epoch_witness :
  (getPURLQualifiers "pkg:rpm/util-linux-ng@2.17.2?epoch=not-a-number"
     !!! purlEpochQualifier = "not-a-number" /\
   fst (result (rpmdbDataFromPURL unit unit
                  "pkg:rpm/util-linux-ng@2.17.2?epoch=not-a-number")) = None /\
   logged (rpmdbDataFromPURL unit unit
             "pkg:rpm/util-linux-ng@2.17.2?epoch=not-a-number") =
     [Warn "unable to parse RPM epoch=%q: %+v" []]) /\
  (getPURLQualifiers "pkg:rpm/util-linux-ng@2.17.2?epoch=4"
     !!! purlEpochQualifier = "4" /\
   fst (result (rpmdbDataFromPURL unit unit "pkg:rpm/util-linux-ng@2.17.2?epoch=4")) =
     Some {| Epoch := Some 4%Z |} /\
   logged (rpmdbDataFromPURL unit unit "pkg:rpm/util-linux-ng@2.17.2?epoch=4") = []).
Proof.
  split; (split; [vm_compute; reflexivity|]).
  - apply (rpmdbDataFromPURL_epoch unit unit
             "pkg:rpm/util-linux-ng@2.17.2?epoch=not-a-number").
    vm_compute. discriminate.
  - apply (rpmdbDataFromPURL_epoch unit unit "pkg:rpm/util-linux-ng@2.17.2?epoch=4").
    vm_compute. discriminate.
Defined.

Lemma dpkgDataFromPkg_upstreams_witness :
  result (dpkgDataFromPkg deb_with_source) = [UpstreamPackage.mk "openssl" ""] /\
  result (dpkgDataFromPkg deb_without_source) = [].
Proof.
  split.
  - apply (dpkgDataFromPkg_upstreams unit unit deb_with_source
             {| syft.Source := "openssl"; syft.SourceVersion := "" |});
      [reflexivity|discriminate].
  - apply (dpkgDataFromPkg_upstreams unit unit deb_without_source
             {| syft.Source := ""; syft.SourceVersion := "" |});
      reflexivity.
Defined.

(** The warning [rpmdbDataFromPkg] does log: on a record whose metadata is not
    of the RPM shape. *)
Example rpmdbDataFromPkg_logs_type_mismatch :
  logged (rpmdbDataFromPkg deb_with_source) =
    [Warn "unable to extract RPM metadata for %s" [ArgPkg deb_with_source]].
Proof. reflexivity. Qed.

(** ** Further properties of the filename parser *)

Lemma str_of_bytes (l : list ascii) : bytes (str l) = l.
Proof. apply list_ascii_of_string_of_list_ascii. Qed.

Lemma filename_bytes (name version release arch : string) (a0 : ascii)
  (a : list ascii) :
  bytes arch = a0 :: a ->
  name +:+ "-" +:+ version +:+ "-" +:+ release +:+ "." +:+ arch +:+ ".rpm" =
  str (bytes name ++ text1 (bytes version) (bytes release) a0 a).
Proof.
  intros Earch. rewrite <- (str_bytes (name +:+ _)). f_equal.
  rewrite !bytes_append, Earch. reflexivity.
Qed.

Lemma grammar_is_matched (s : string) :
  rpm_filename (bytes s) -> is_Some (FindStringSubmatch rpmPackageNamePattern s).
Proof.
  intros H. apply rpm_filename_canonical in H
    as (n & v & r & a0 & a & E & Hn & Hv & Hr & Hv' & Hr' & Ha0 & Hne & Ha).
  rewrite <- (str_bytes s), E.
  rewrite (submatch_pattern _ _ _ _ _ Hn Hv Hr Hv' Hr' Ha0 Hne Ha). eauto.
Qed.

(** X1: on a filename whose version and release hold no hyphen, the pattern
    matches and its groups capture, in order, the whole filename, the name,
    the version, the release, the arch and the suffix: the name is all that
    comes before the last two hyphens ahead of the arch. *)
Theorem rpmPackageNamePattern_captures (name version release arch : string) :
  one_line name -> one_line version -> one_line release ->
  no_hyphen version -> no_hyphen release -> arch_token arch ->
  FindStringSubmatch rpmPackageNamePattern
    (name +:+ "-" +:+ version +:+ "-" +:+ release +:+ "." +:+ arch +:+ ".rpm") =
  Some [ name +:+ "-" +:+ version +:+ "-" +:+ release +:+ "." +:+ arch +:+ ".rpm";
         name; version; release; arch; ".rpm" ].
Proof.
  intros Hn Hv Hr Hv' Hr' (a0 & a & Earch & Ha0 & Hne & Ha).
  rewrite (filename_bytes _ _ _ _ _ _ Earch).
  rewrite (submatch_pattern _ _ _ _ _ Hn Hv Hr Hv' Hr' Ha0 Hne Ha).
  rewrite <- Earch, !str_bytes. reflexivity.
Qed.

(** X2: the pattern matches a text exactly when the text is of the grammar:
    a name, a version and a release without newline, separated by hyphens,
    then a dot, an arch that starts with a letter and holds no dot, and the
    suffix [.rpm]. *)
Theorem rpmPackageNamePattern_matches_grammar (s : string) :
  is_Some (FindStringSubmatch rpmPackageNamePattern s) <-> rpm_filename (bytes s).
Proof.
  split.
  - intros [ms E]. eapply lang_nodes, FindStringSubmatch_sound, E.
  - apply grammar_is_matched.
Qed.

(** X3: on a filename whose version and release hold no hyphen,
    [getNameAndELVersion] returns the name and the version joined to the
    release by a hyphen; the name may hold hyphens and the version an epoch
    prefix, which stays in the composed version. *)
Theorem getNameAndELVersion_last_two_hyphens (name version release arch : string) :
  one_line name -> one_line version -> one_line release ->
  no_hyphen version -> no_hyphen release -> arch_token arch ->
  getNameAndELVersion
    (name +:+ "-" +:+ version +:+ "-" +:+ release +:+ "." +:+ arch +:+ ".rpm") =
  (name, version +:+ "-" +:+ release).
Proof. exact (getNameAndELVersion_parses name version release arch). Qed.


(** X4: for every text, either the text is of the grammar, and
    [getNameAndELVersion] returns the name and the version joined to the
    release of its decomposition at the last two hyphens before the arch, or
    the text is outside the grammar, and [getNameAndELVersion] returns the
    empty name and the lone hyphen. *)
Theorem getNameAndELVersion_total (s : string) :
  (rpm_filename (bytes s) /\
   exists name version release arch,
     s = name +:+ "-" +:+ version +:+ "-" +:+ release +:+ "." +:+ arch +:+ ".rpm" /\
     no_hyphen version /\ no_hyphen release /\ arch_token arch /\
     getNameAndELVersion s = (name, version +:+ "-" +:+ release)) \/
  (~ rpm_filename (bytes s) /\ getNameAndELVersion s = ("", "-")).
Proof.
  destruct (FindStringSubmatch rpmPackageNamePattern s) as [ms|] eqn:E.
  - left. assert (H : rpm_filename (bytes s))
      by (eapply lang_nodes, FindStringSubmatch_sound, E).
    split; [exact H|].
    apply rpm_filename_canonical in H
      as (n & v & r & a0 & a & Eb & Hn & Hv & Hr & Hv' & Hr' & Ha0 & Hne & Ha).
    assert (Harch : arch_token (str (a0 :: a))).
    { exists a0, a. rewrite str_of_bytes. auto. }
    assert (Es : s = str n +:+ "-" +:+ str v +:+ "-" +:+ str r +:+ "." +:+
                     str (a0 :: a) +:+ ".rpm").
    { rewrite (filename_bytes _ _ _ _ a0 a) by apply str_of_bytes.
      rewrite !str_of_bytes, <- Eb. symmetry. apply str_bytes. }
    exists (str n), (str v), (str r), (str (a0 :: a)).
    assert (Hv2 : no_hyphen (str v)) by (unfold no_hyphen; now rewrite str_of_bytes).
    assert (Hr2 : no_hyphen (str r)) by (unfold no_hyphen; now rewrite str_of_bytes).
    repeat (split; [assumption|]). rewrite Es.
    apply getNameAndELVersion_parses; try assumption;
      unfold one_line; rewrite str_of_bytes; assumption.
  - right. assert (H : ~ rpm_filename (bytes s)).
    { intros H. apply grammar_is_matched in H as [ms H]. congruence. }
    split; [exact H|]. now apply getNameAndELVersion_unmatched.
Qed.

Lemma no_rpm_suffix_outside_grammar :
  ~ rpm_filename (bytes "util-linux-ng-2.17.2-12.28.el6_9.2.src").
Proof.
  intros H. apply rpm_filename_suffix in H as (x & E).
  apply (f_equal (@rev ascii)) in E. rewrite rev_app_distr in E.
  discriminate E.
Qed.


Ltac solve_parts :=
  unfold one_line, no_hyphen, arch_token; simpl;
  first
    [ solve [repeat constructor]
    | solve [let H := fresh in
             intros H; repeat (destruct H as [H|H]; [discriminate|]); exact H]
    | solve [eexists _, _; split; [reflexivity|]; split; [reflexivity|];
             split; [discriminate|repeat constructor]] ].

Lemma rpmPackageNamePattern_captures_witness :
  FindStringSubmatch rpmPackageNamePattern
    "util-linux-ng-4:2.17.2-12.28.el6_9.2.src.rpm" =
  Some [ "util-linux-ng-4:2.17.2-12.28.el6_9.2.src.rpm";
         "util-linux-ng"; "4:2.17.2"; "12.28.el6_9.2"; "src"; ".rpm" ].
Proof.
  apply (rpmPackageNamePattern_captures
           "util-linux-ng" "4:2.17.2" "12.28.el6_9.2" "src"); solve_parts.
Defined.

Lemma getNameAndELVersion_last_two_hyphens_witness :
  getNameAndELVersion "util-linux-ng-4:2.17.2-12.28.el6_9.2.src.rpm" =
    ("util-linux-ng", "4:2.17.2-12.28.el6_9.2").
Proof.
  apply (getNameAndELVersion_last_two_hyphens
           "util-linux-ng" "4:2.17.2" "12.28.el6_9.2" "src"); solve_parts.
Defined.



(** ** Further properties of the extractors *)

Lemma cut_Some (sep : ascii) (l x y : list ascii) :
  cut sep l = Some (x, y) -> l = (x ++ sep :: y)%list /\ ~ In sep x.
Proof.
  revert x y. induction l as [|a l IH]; intros x y H; simpl in H; [discriminate|].
  destruct (Ascii.eqb a sep) eqn:E.
  - apply Ascii.eqb_eq in E. injection H as <- <-. subst a. auto.
  - apply Ascii.eqb_neq in E. destruct (cut sep l) as [[x' y']|]; [|discriminate].
    injection H as <- <-. destruct (IH _ _ eq_refl) as [-> Hx].
    split; [reflexivity|]. intros [H|H]; [congruence|contradiction].
Qed.

Lemma cut_None (sep : ascii) (l : list ascii) :
  cut sep l = None -> ~ In sep l.
Proof.
  induction l as [|a l IH]; intros H; simpl in H; [intros []|].
  destruct (Ascii.eqb a sep) eqn:E; [discriminate|].
  apply Ascii.eqb_neq in E. destruct (cut sep l) as [[x' y']|]; [discriminate|].
  intros [H'|H']; [congruence|]. now apply IH.
Qed.

Lemma str_append (x y : list ascii) : str (x ++ y) = str x +:+ str y.
Proof.
  rewrite <- (str_bytes (str x +:+ str y)), bytes_append, !str_of_bytes.
  reflexivity.
Qed.

Arguments ID {Location CPE} _.
Arguments Name {Location CPE} _.
Arguments Version {Location CPE} _.
Arguments Locations {Location CPE} _.
Arguments Language {Location CPE} _.
Arguments Licenses {Location CPE} _.
Arguments Type_ {Location CPE} _.
Arguments CPEs {Location CPE} _.
Arguments PURL {Location CPE} _.
Arguments Upstreams {Location CPE} _.
Arguments MetadataType_ {Location CPE} _.
Arguments Metadata {Location CPE} _.

Section More.
Variables Location CPE : Type.

Abbreviation scannedPackage := (syft.Package Location CPE).

#[local] Opaque getNameAndELVersion getPURLQualifiers Atoi.

Lemma result_bind {A B : Type} (m : Log Location CPE A) (k : A -> Log Location CPE B) :
  result (bind m k) = result (k (result m)).
Proof. unfold result, bind. destruct m as [x w1]. simpl. now destruct (k x). Qed.

Lemma logged_bind {A B : Type} (m : Log Location CPE A) (k : A -> Log Location CPE B) :
  logged (bind m k) = (logged m ++ logged (k (result m)))%list.
Proof. unfold logged, result, bind. destruct m as [x w1]. simpl. now destruct (k x). Qed.

(** X5: each extractor that reads the typed metadata logs nothing when the
    metadata has the shape of its ecosystem, and otherwise returns nothing and
    logs the one warning that names the record. *)
Theorem typed_extractors_log_on_mismatch (p : scannedPackage) :
  match syft.Metadata p with
  | syft.Dpkg _ => logged (dpkgDataFromPkg p) = []
  | _ => dpkgDataFromPkg p =
           ([], [Warn "unable to extract DPKG metadata for %s" [ArgPkg p]])
  end /\
  match syft.Metadata p with
  | syft.Rpmdb _ => logged (rpmdbDataFromPkg p) = []
  | _ => rpmdbDataFromPkg p =
           ((None, []), [Warn "unable to extract RPM metadata for %s" [ArgPkg p]])
  end /\
  match syft.Metadata p with
  | syft.Java _ => logged (javaDataFromPkg p) = []
  | _ => javaDataFromPkg p =
           (None, [Warn "unable to extract Java metadata for %s" [ArgPkg p]])
  end /\
  match syft.Metadata p with
  | syft.Apk _ => logged (apkDataFromPkg p) = []
  | _ => apkDataFromPkg p =
           ([], [Warn "unable to extract APK metadata for %s" [ArgPkg p]])
  end.
Proof.
  unfold dpkgDataFromPkg, rpmdbDataFromPkg, javaDataFromPkg, apkDataFromPkg.
  destruct (syft.Metadata p) as [|d|r|j|a|]; repeat split; try reflexivity.
  - destruct (String.eqb (syft.Source d) ""); reflexivity.
  - destruct (String.eqb (syft.SourceRpm r) ""); [reflexivity|]. simpl.
    pose proof (getNameAndELVersion_version_nonempty (syft.SourceRpm r)) as Hv.
    destruct (getNameAndELVersion (syft.SourceRpm r)) as [name version].
    simpl in Hv. rewrite (eqb_empty_false _ Hv), andb_false_r.
    destruct (negb (String.eqb name (syft.Name p))); reflexivity.
  - destruct (syft.PomProperties_ j); reflexivity.
  - destruct (String.eqb (syft.OriginPackage a) ""); reflexivity.
Qed.

(** X6: the Debian extractor on a Package URL emits nothing when the upstream
    qualifier is empty or missing, and otherwise exactly one upstream package:
    the whole qualifier as name and no version when the qualifier holds no
    [@], else the text before the first [@] as name and the text after it as
    version. *)
Theorem dpkgDataFromPURL_split (p : string) :
  let upstream := getPURLQualifiers p !!! purlUpstreamQualifier in
  match dpkgDataFromPURL p with
  | [] => upstream = ""
  | [u] =>
      upstream <> "" /\
      ((~ In "@"%char (bytes upstream) /\
        UpstreamPackage.Name u = upstream /\ UpstreamPackage.Version u = "") \/
       (upstream = UpstreamPackage.Name u +:+ "@" +:+ UpstreamPackage.Version u /\
        ~ In "@"%char (bytes (UpstreamPackage.Name u))))
  | _ => False
  end.
Proof.
  unfold dpkgDataFromPURL. cbv zeta.
  set (upstream := getPURLQualifiers p !!! purlUpstreamQualifier).
  destruct (String.eqb upstream "") eqn:E.
  - now apply String.eqb_eq in E.
  - apply String.eqb_neq in E. unfold SplitN2.
    destruct (cut "@" (bytes upstream)) as [[x y]|] eqn:Hc; simpl.
    + split; [assumption|]. right.
      apply cut_Some in Hc as [Hb Hx]. split.
      * rewrite <- (str_bytes upstream), Hb.
        change ("@"%char :: y) with (bytes "@" ++ y)%list.
        now rewrite !str_append, str_bytes.
      * now rewrite str_of_bytes.
    + split; [assumption|]. left. apply cut_None in Hc. auto.
Qed.

(** X7: what the Alpine extractors emit carries the origin package, or the
    upstream qualifier, as its name, which is not empty, and never a
    version. *)
Theorem apk_upstreams_name_only (p : scannedPackage) (purl : string) :
  (forall u, In u (result (apkDataFromPkg p)) ->
     exists value, syft.Metadata p = syft.Apk value /\
       UpstreamPackage.Name u = syft.OriginPackage value /\
       UpstreamPackage.Name u <> "" /\ UpstreamPackage.Version u = "") /\
  (forall u, In u (apkDataFromPURL purl) ->
     UpstreamPackage.Name u = getPURLQualifiers purl !!! purlUpstreamQualifier /\
     UpstreamPackage.Name u <> "" /\ UpstreamPackage.Version u = "").
Proof.
  unfold apkDataFromPkg, apkDataFromPURL. split; intros u.
  - destruct (syft.Metadata p) as [| | | |value|]; simpl; try tauto.
    destruct (String.eqb (syft.OriginPackage value) "") eqn:E; simpl; [tauto|].
    apply String.eqb_neq in E. intros [<-|[]]. exists value. auto.
  - destruct (String.eqb _ "") eqn:E; simpl; [tauto|].
    apply String.eqb_neq in E. intros [<-|[]]. auto.
Qed.

(** X8: with metadata of the RPM shape the extractor returns a fragment
    exactly when the epoch of the record is set, and the fragment carries that
    epoch, whatever the source-RPM field holds; for a record of the RPM
    metadata type the dispatcher then returns the kind rpmdb with that
    fragment, and the kind none without a fragment when the epoch is nil. *)
Theorem rpmdbDataFromPkg_epoch (p : scannedPackage) (value : syft.RpmdbMetadata) :
  syft.Metadata p = syft.Rpmdb value ->
  fst (result (rpmdbDataFromPkg p)) =
    match syft.Epoch value with
    | Some e => Some {| Epoch := Some e |}
    | None => None
    end /\
  (syft.MetadataType p = syft.RpmdbMetadataType ->
   fst (result (dataFromPkg p)) =
     match syft.Epoch value with
     | Some e => (RpmdbMetadataType, RpmdbValue {| Epoch := Some e |})
     | None => (UnsetMetadataType, NoMetadata)
     end).
Proof.
  intros Hm.
  assert (H : fst (result (rpmdbDataFromPkg p)) =
              match syft.Epoch value with
              | Some e => Some {| Epoch := Some e |}
              | None => None
              end).
  { unfold rpmdbDataFromPkg. rewrite Hm.
    destruct (String.eqb (syft.SourceRpm value) ""); [reflexivity|]. simpl.
    destruct (getNameAndELVersion (syft.SourceRpm value)) as [name version].
    destruct (String.eqb name "" && String.eqb version ""); [reflexivity|].
    destruct (negb (String.eqb name (syft.Name p))); reflexivity. }
  split; [exact H|]. intros Hmt. unfold dataFromPkg. rewrite Hmt. simpl.
  rewrite result_bind, H. destruct (syft.Epoch value); reflexivity.
Qed.

(** X9: with metadata of the RPM shape whose source-RPM field is a filename
    with hyphen-free version and release and a name other than the record's
    own, the extractor emits exactly the upstream package with that name and
    the version joined to the release, and logs nothing. *)
Theorem rpmdbDataFromPkg_upstream_parsed (p : scannedPackage)
  (value : syft.RpmdbMetadata) (name version release arch : string) :
  syft.Metadata p = syft.Rpmdb value ->
  syft.SourceRpm value =
    name +:+ "-" +:+ version +:+ "-" +:+ release +:+ "." +:+ arch +:+ ".rpm" ->
  one_line name -> one_line version -> one_line release ->
  no_hyphen version -> no_hyphen release -> arch_token arch ->
  name <> syft.Name p ->
  snd (result (rpmdbDataFromPkg p)) =
    [UpstreamPackage.mk name (version +:+ "-" +:+ release)] /\
  logged (rpmdbDataFromPkg p) = [].
Proof.
  intros Hm Hs Hn Hv Hr Hv' Hr' Ha Hne. unfold rpmdbDataFromPkg. rewrite Hm.
  pose proof (getNameAndELVersion_parses name version release arch
                Hn Hv Hr Hv' Hr' Ha) as Hp.
  rewrite <- Hs in Hp.
  assert (Hs' : String.eqb (syft.SourceRpm value) "" = false).
  { apply String.eqb_neq. rewrite Hs. destruct name; discriminate. }
  rewrite Hs'. simpl. rewrite Hp.
  assert (Hver : String.eqb (version +:+ "-" +:+ release) "" = false).
  { apply eqb_empty_false, append_hyphen_nonempty. }
  rewrite Hver, andb_false_r.
  apply String.eqb_neq in Hne. rewrite Hne. simpl. auto.
Qed.

(** X10: with metadata of the RPM shape whose source-RPM field is not empty
    and not a filename of the grammar, the extractor emits, for a record with
    a name, the upstream package with the empty name and the hyphen as
    version, and logs nothing. *)
Theorem rpmdbDataFromPkg_unparsed_source (p : scannedPackage)
  (value : syft.RpmdbMetadata) :
  syft.Metadata p = syft.Rpmdb value ->
  syft.SourceRpm value <> "" ->
  ~ rpm_filename (bytes (syft.SourceRpm value)) ->
  syft.Name p <> "" ->
  snd (result (rpmdbDataFromPkg p)) = [UpstreamPackage.mk "" "-"] /\
  logged (rpmdbDataFromPkg p) = [].
Proof.
  intros Hm Hs Hg Hn. unfold rpmdbDataFromPkg. rewrite Hm.
  rewrite (eqb_empty_false _ Hs). simpl.
  rewrite (getNameAndELVersion_unmatched _ Hg). simpl.
  destruct (syft.Name p) as [|c name]; [congruence|]. split; reflexivity.
Qed.

(** *** The dispatcher *)

Lemma dpkgDataFromPkg_bounds (p : scannedPackage) :
  length (result (dpkgDataFromPkg p)) <= 1 /\ length (logged (dpkgDataFromPkg p)) <= 1.
Proof.
  unfold dpkgDataFromPkg. destruct (syft.Metadata p) as [|d| | | |];
    try (simpl; lia).
  destruct (String.eqb (syft.Source d) ""); simpl; lia.
Qed.

Lemma apkDataFromPkg_bounds (p : scannedPackage) :
  length (result (apkDataFromPkg p)) <= 1 /\ length (logged (apkDataFromPkg p)) <= 1.
Proof.
  unfold apkDataFromPkg. destruct (syft.Metadata p) as [| | | |a|];
    try (simpl; lia).
  destruct (String.eqb (syft.OriginPackage a) ""); simpl; lia.
Qed.

Lemma javaDataFromPkg_bounds (p : scannedPackage) :
  length (logged (javaDataFromPkg p)) <= 1.
Proof.
  unfold javaDataFromPkg. destruct (syft.Metadata p) as [| | |j| |];
    try (simpl; lia).
  destruct (syft.PomProperties_ j); simpl; lia.
Qed.

Lemma rpmdbDataFromPkg_bounds (p : scannedPackage) :
  length (snd (result (rpmdbDataFromPkg p))) <= 1 /\
  length (logged (rpmdbDataFromPkg p)) <= 1.
Proof.
  unfold rpmdbDataFromPkg. destruct (syft.Metadata p) as [| |r| | |];
    try (simpl; lia).
  destruct (String.eqb (syft.SourceRpm r) ""); [simpl; lia|]. simpl.
  destruct (getNameAndELVersion (syft.SourceRpm r)) as [name version].
  destruct (String.eqb name "" && String.eqb version ""); [simpl; lia|].
  destruct (negb (String.eqb name (syft.Name p))); simpl; lia.
Qed.

Lemma rpmdbDataFromPURL_bounds (purl : string) :
  length (snd (result (rpmdbDataFromPURL Location CPE purl))) <= 1 /\
  length (logged (rpmdbDataFromPURL Location CPE purl)) <= 1.
Proof.
  unfold rpmdbDataFromPURL. cbv zeta.
  destruct (String.eqb (getPURLQualifiers purl !!! purlEpochQualifier) "");
    [|destruct (Atoi _)];
    (destruct (String.eqb (getPURLQualifiers purl !!! purlUpstreamQualifier) "");
     [|destruct (getNameAndELVersion _)]); simpl; lia.
Qed.

Lemma dpkgDataFromPURL_bounds (purl : string) : length (dpkgDataFromPURL purl) <= 1.
Proof.
  unfold dpkgDataFromPURL. cbv zeta. destruct (String.eqb _ ""); [simpl; lia|].
  destruct (SplitN2 _ _) as [|f0 [|f1 fs]]; simpl; lia.
Qed.

Lemma apkDataFromPURL_bounds (purl : string) : length (apkDataFromPURL purl) <= 1.
Proof.
  unfold apkDataFromPURL. cbv zeta. destruct (String.eqb _ ""); simpl; lia.
Qed.

Lemma dataFromPkg_bounds (p : scannedPackage) :
  length (snd (result (dataFromPkg p))) <= 1 /\
  length (logged (dataFromPkg p)) <= 1.
Proof.
  pose proof (dpkgDataFromPkg_bounds p). pose proof (apkDataFromPkg_bounds p).
  pose proof (javaDataFromPkg_bounds p). pose proof (rpmdbDataFromPkg_bounds p).
  pose proof (rpmdbDataFromPURL_bounds (syft.PURL p)).
  pose proof (dpkgDataFromPURL_bounds (syft.PURL p)).
  pose proof (apkDataFromPURL_bounds (syft.PURL p)).
  unfold dataFromPkg.
  repeat match goal with
         | |- context [if String.eqb ?x ?y then _ else _] =>
             destruct (String.eqb x y)
         end;
    rewrite ?result_bind, ?logged_bind;
    try match goal with
        | |- context [match fst ?m with Some _ => _ | None => _ end] =>
            destruct (fst m)
        | |- context [match result ?m with Some _ => _ | None => _ end] =>
            destruct (result m)
        end;
    simpl; rewrite ?app_nil_r; simpl; lia.
Qed.

(** X14: for every record the dispatcher returns at most one upstream package
    and logs at most one warning. *)
Theorem dataFromPkg_at_most_one (p : scannedPackage) :
  length (snd (result (dataFromPkg p))) <= 1 /\
  length (logged (dataFromPkg p)) <= 1.
Proof. exact (dataFromPkg_bounds p). Qed.

Ltac by_kind :=
  unfold dataFromPkg;
  repeat match goal with
         | |- context [if String.eqb ?x ?y then _ else _] =>
             let E := fresh "E" in destruct (String.eqb x y) eqn:E
         end.

(** X11: with a metadata type set, the typed tier alone decides the result:
    two records with the same metadata type, metadata and name get the same
    result, whatever their types and Package URLs are. *)
Theorem dataFromPkg_typed_tier (p p' : scannedPackage) :
  syft.MetadataType p <> "" ->
  syft.MetadataType p = syft.MetadataType p' ->
  syft.Metadata p = syft.Metadata p' ->
  syft.Name p = syft.Name p' ->
  result (dataFromPkg p) = result (dataFromPkg p').
Proof.
  intros Hne Hmt Hmd Hn. unfold dataFromPkg. rewrite <- Hmt.
  assert (Hd : result (dpkgDataFromPkg p) = result (dpkgDataFromPkg p')).
  { unfold dpkgDataFromPkg. rewrite <- Hmd.
    destruct (syft.Metadata p) as [|d| | | |]; reflexivity. }
  assert (Ha : result (apkDataFromPkg p) = result (apkDataFromPkg p')).
  { unfold apkDataFromPkg. rewrite <- Hmd.
    destruct (syft.Metadata p) as [| | | |a|]; reflexivity. }
  assert (Hj : result (javaDataFromPkg p) = result (javaDataFromPkg p')).
  { unfold javaDataFromPkg. rewrite <- Hmd.
    destruct (syft.Metadata p) as [| | |j| |]; reflexivity. }
  assert (Hr : result (rpmdbDataFromPkg p) = result (rpmdbDataFromPkg p')).
  { unfold rpmdbDataFromPkg. rewrite <- Hmd, <- Hn.
    destruct (syft.Metadata p) as [| |r| | |]; reflexivity. }
  repeat match goal with
         | |- context [if String.eqb ?x ?y then _ else _] =>
             let E := fresh "E" in destruct (String.eqb x y) eqn:E
         end;
    try match goal with
        | H : String.eqb (syft.MetadataType p) "" = true |- _ =>
            apply String.eqb_eq in H; contradiction
        end;
    rewrite ?result_bind, <- ?Hd, <- ?Ha, <- ?Hj, <- ?Hr; reflexivity.
Qed.

(** X12: without a metadata type, the type and the Package URL alone decide
    the result and the log: the metadata and the name of the record play no
    part, so an upstream package named like the record itself is kept. *)
Theorem dataFromPkg_purl_tier (p p' : scannedPackage) :
  syft.MetadataType p = "" -> syft.MetadataType p' = "" ->
  syft.Type_ p = syft.Type_ p' -> syft.PURL p = syft.PURL p' ->
  dataFromPkg p = dataFromPkg p'.
Proof.
  intros Hm Hm' Ht Hp. unfold dataFromPkg. rewrite Hm, Hm', Ht, Hp. reflexivity.
Qed.

(** X13: a record whose metadata type is none of the four the dispatcher
    knows nor empty, or whose metadata type is empty and whose type is none of
    apk, deb and rpm, gets no kind, no fragment, no upstream package and no
    warning. *)
Theorem dataFromPkg_unknown (p : scannedPackage) :
  syft.MetadataType p <> syft.DpkgMetadataType ->
  syft.MetadataType p <> syft.RpmdbMetadataType ->
  syft.MetadataType p <> syft.JavaMetadataType ->
  syft.MetadataType p <> syft.ApkMetadataType ->
  (syft.MetadataType p = "" ->
   syft.Type_ p <> syft.ApkPkg /\ syft.Type_ p <> syft.DebPkg /\
   syft.Type_ p <> syft.RpmPkg) ->
  dataFromPkg p = ((UnsetMetadataType, NoMetadata, []), []).
Proof.
  intros Hd Hr Hj Ha Ht. unfold dataFromPkg.
  apply String.eqb_neq in Hd, Hr, Hj, Ha. rewrite Hd, Hr, Hj, Ha.
  destruct (String.eqb (syft.MetadataType p) "") eqn:E; [|reflexivity].
  apply String.eqb_eq in E. destruct (Ht E) as (H1 & H2 & H3).
  apply String.eqb_neq in H1, H2, H3. rewrite H1, H2, H3. reflexivity.
Qed.

(** X15: a fragment of the kind rpmdb always carries an epoch: the dispatcher
    never returns one whose epoch is nil. *)
Theorem dataFromPkg_rpmdb_epoch (p : scannedPackage) (m : RpmdbMetadata) :
  snd (fst (result (dataFromPkg p))) = RpmdbValue m -> Epoch m <> None.
Proof.
  assert (Ht : forall m0, fst (result (rpmdbDataFromPkg p)) = Some m0 ->
                          Epoch m0 <> None).
  { intros m0. unfold rpmdbDataFromPkg.
    destruct (syft.Metadata p) as [| |r| | |]; try discriminate.
    destruct (String.eqb (syft.SourceRpm r) "");
      [|simpl; destruct (getNameAndELVersion (syft.SourceRpm r)) as [name version];
        destruct (String.eqb name "" && String.eqb version "");
        [|destruct (negb (String.eqb name (syft.Name p)))]];
      simpl; (destruct (syft.Epoch r); [|discriminate]);
      intros [= <-]; discriminate. }
  assert (Hu : forall m0, fst (result (rpmdbDataFromPURL Location CPE (syft.PURL p))) = Some m0 ->
                          Epoch m0 <> None).
  { intros m0. unfold rpmdbDataFromPURL. cbv zeta.
    destruct (String.eqb (getPURLQualifiers (syft.PURL p) !!! purlEpochQualifier) "");
      [|destruct (Atoi _)];
      (destruct (String.eqb (getPURLQualifiers (syft.PURL p) !!! purlUpstreamQualifier) "");
       [|destruct (getNameAndELVersion _)]); simpl; try discriminate;
      intros [= <-]; discriminate. }
  by_kind; rewrite ?result_bind; try discriminate.
  - destruct (fst (result (rpmdbDataFromPkg p))) as [m0|] eqn:Em;
      [|discriminate]. intros [= <-]. now apply Ht.
  - destruct (result (javaDataFromPkg p)); discriminate.
  - destruct (fst (result (rpmdbDataFromPURL Location CPE (syft.PURL p)))) as [m0|] eqn:Em;
      [|discriminate]. intros [= <-]. now apply Hu.
Qed.

(** X16: a Debian or an Alpine record, by its metadata type or, without one,
    by its type, never gets a metadata fragment: the kind stays none. *)
Theorem dataFromPkg_deb_apk_no_fragment (p : scannedPackage) :
  syft.MetadataType p = syft.DpkgMetadataType \/
  syft.MetadataType p = syft.ApkMetadataType \/
  (syft.MetadataType p = "" /\
   (syft.Type_ p = syft.ApkPkg \/ syft.Type_ p = syft.DebPkg)) ->
  fst (result (dataFromPkg p)) = (UnsetMetadataType, NoMetadata).
Proof.
  unfold dataFromPkg.
  intros [H|[H|[H [H'|H']]]]; rewrite H; try rewrite H'; simpl;
    rewrite ?result_bind; reflexivity.
Qed.

(** X17: a record of the Java metadata type with metadata of the Java shape
    gets the kind java, no upstream package and no warning; the fragment
    copies the virtual path, takes the artifact and group identifiers from the
    POM properties and the manifest name from the key [Name] of the main
    section, each empty when its source is nil or the key is missing. *)
Theorem dataFromPkg_java (p : scannedPackage) (value : syft.JavaMetadata) :
  syft.MetadataType p = syft.JavaMetadataType ->
  syft.Metadata p = syft.Java value ->
  exists m,
    dataFromPkg p = ((JavaMetadataType, JavaValue m, []), []) /\
    VirtualPath m = syft.VirtualPath value /\
    PomArtifactID m = from_option syft.ArtifactID "" (syft.PomProperties_ value) /\
    PomGroupID m = from_option syft.GroupID "" (syft.PomProperties_ value) /\
    ManifestName m =
      from_option (fun mf => syft.Main mf !!! "Name") "" (syft.Manifest value).
Proof.
  intros Hmt Hmd. unfold dataFromPkg, javaDataFromPkg. rewrite Hmt, Hmd. simpl.
  destruct (syft.PomProperties_ value) as [pom|];
    destruct (syft.Manifest value) as [mf|]; simpl; eexists;
    (split; [reflexivity|]); simpl; unfold get;
    try destruct (syft.Main mf !! "Name"); auto.
Qed.

(** *** The builder and the catalog *)

Lemma result_New (p : scannedPackage) :
  result (New p) =
  {| ID := syft.ID p;
     Name := syft.Name p;
     Version := syft.Version p;
     Locations := syft.Locations p;
     Licenses := syft.Licenses p;
     Language := syft.Language p;
     Type_ := syft.Type_ p;
     CPEs := syft.CPEs p;
     PURL := syft.PURL p;
     Upstreams := snd (result (dataFromPkg p));
     MetadataType_ := fst (fst (result (dataFromPkg p)));
     Metadata := snd (fst (result (dataFromPkg p))) |}.
Proof.
  unfold New. rewrite result_bind.
  destruct (result (dataFromPkg p)) as [[mt md] us]. reflexivity.
Qed.

Lemma dataFromPkg_kind_of (p : scannedPackage) :
  fst (fst (result (dataFromPkg p))) = kind_of (snd (fst (result (dataFromPkg p)))).
Proof.
  by_kind; rewrite ?result_bind; try reflexivity.
  - destruct (fst (result (rpmdbDataFromPkg p))); reflexivity.
  - destruct (result (javaDataFromPkg p)); reflexivity.
  - destruct (fst (result (rpmdbDataFromPURL Location CPE (syft.PURL p))));
      reflexivity.
Qed.

Lemma FromCatalog_unfold (sorted : list scannedPackage) :
  result (FromCatalog sorted) = map (fun p => result (New p)) sorted /\
  logged (FromCatalog sorted) = concat (map (fun p => logged (New p)) sorted).
Proof.
  induction sorted as [|p rest [IHr IHl]]; [split; reflexivity|].
  simpl FromCatalog. rewrite !result_bind, !logged_bind. simpl.
  rewrite IHr, IHl, app_nil_r. split; reflexivity.
Qed.

(** X18: [FromCatalog] builds one package per record of the sequence, in the
    order of the sequence, each the package [New] builds from the record, and
    its log is the logs of these calls one after the other. *)
Theorem FromCatalog_map (sorted : list scannedPackage) :
  result (FromCatalog sorted) = map (fun p => result (New p)) sorted /\
  logged (FromCatalog sorted) = concat (map (fun p => logged (New p)) sorted).
Proof. exact (FromCatalog_unfold sorted). Qed.

(** X19: looking an identifier up in the packages built from a catalog finds
    the package built from the first record of the sequence with that
    identifier, and finds nothing exactly when no record has it. *)
Theorem ByID_FromCatalog (id : string) (sorted : list scannedPackage) :
  match ByID id (result (FromCatalog sorted)) with
  | Some q =>
      exists before p after,
        sorted = (before ++ p :: after)%list /\ syft.ID p = id /\
        q = result (New p) /\
        Forall (fun p' => syft.ID p' <> id) before
  | None => Forall (fun p' => syft.ID p' <> id) sorted
  end.
Proof.
  destruct (FromCatalog_unfold sorted) as [-> _].
  induction sorted as [|p rest IH]; simpl; [constructor|].
  assert (HID : ID (result (New p)) = syft.ID p)
    by (rewrite result_New; reflexivity).
  rewrite HID. destruct (String.eqb (syft.ID p) id) eqn:E.
  - apply String.eqb_eq in E. exists [], p, rest. auto.
  - apply String.eqb_neq in E.
    destruct (ByID id (map (fun p0 => result (New p0)) rest)) as [q|].
    + destruct IH as (before & p' & after & -> & Hid & Hq & Hb).
      exists (p :: before), p', after. auto.
    + constructor; assumption.
Qed.

(** X20: every package built from a catalog keeps the identifier, name,
    version, type and Package URL of its record, has a kind that agrees with
    its fragment, and has at most one upstream package. *)
Theorem FromCatalog_invariants (sorted : list scannedPackage) :
  Forall2 (fun p q =>
             ID q = syft.ID p /\ Name q = syft.Name p /\
             Version q = syft.Version p /\ Type_ q = syft.Type_ p /\
             PURL q = syft.PURL p /\
             MetadataType_ q = kind_of (Metadata q) /\
             length (Upstreams q) <= 1)
          sorted (result (FromCatalog sorted)).
Proof.
  destruct (FromCatalog_unfold sorted) as [-> _].
  induction sorted as [|p rest IH]; simpl; constructor; [|exact IH].
  rewrite result_New. simpl.
  repeat split; [apply dataFromPkg_kind_of|apply dataFromPkg_bounds].
Qed.

#[local] Transparent getNameAndELVersion getPURLQualifiers Atoi.

End More.

(** ** The further properties at sample records *)

Lemma rpmdbDataFromPkg_epoch_witness :
  fst (result (rpmdbDataFromPkg rpm_with_epoch)) = Some {| Epoch := Some 4%Z |} /\
  fst (result (dataFromPkg rpm_with_epoch)) =
    (RpmdbMetadataType, RpmdbValue {| Epoch := Some 4%Z |}).
Proof.
  destruct (rpmdbDataFromPkg_epoch unit unit rpm_with_epoch
              {| syft.SourceRpm := "util-linux-ng-4:2.17.2-12.28.el6_9.2.src.rpm";
                 syft.Epoch := Some 4%Z |} eq_refl) as [H1 H2].
  split; [exact H1|exact (H2 eq_refl)].
Defined.

Lemma rpmdbDataFromPkg_upstream_parsed_witness :
  snd (result (rpmdbDataFromPkg rpm_with_epoch)) =
    [UpstreamPackage.mk "util-linux-ng" "4:2.17.2-12.28.el6_9.2"] /\
  logged (rpmdbDataFromPkg rpm_with_epoch) = [].
Proof.
  apply (rpmdbDataFromPkg_upstream_parsed unit unit rpm_with_epoch
           {| syft.SourceRpm := "util-linux-ng-4:2.17.2-12.28.el6_9.2.src.rpm";
              syft.Epoch := Some 4%Z |}
           "util-linux-ng" "4:2.17.2" "12.28.el6_9.2" "src");
    try reflexivity; try discriminate; solve_parts.
Defined.

Lemma dataFromPkg_typed_tier_witness :
  result (dataFromPkg rpm_with_epoch) =
  result (dataFromPkg rpm_with_epoch_relabelled).
Proof.
  apply (dataFromPkg_typed_tier unit unit rpm_with_epoch rpm_with_epoch_relabelled);
    [discriminate|reflexivity..].
Defined.

Lemma dataFromPkg_purl_tier_witness :
  dataFromPkg util_linux_pkg = dataFromPkg util_linux_pkg_renamed.
Proof.
  apply (dataFromPkg_purl_tier unit unit util_linux_pkg util_linux_pkg_renamed);
    reflexivity.
Defined.

Lemma dataFromPkg_unknown_witness :
  dataFromPkg python_pkg = ((UnsetMetadataType, NoMetadata, []), []) /\
  dataFromPkg jar_without_metadata = ((UnsetMetadataType, NoMetadata, []), []).
Proof.
  split.
  - apply (dataFromPkg_unknown unit unit python_pkg); discriminate.
  - apply (dataFromPkg_unknown unit unit jar_without_metadata);
      try discriminate.
    intros _. repeat split; discriminate.
Defined.

Lemma dataFromPkg_rpmdb_epoch_witness :
  Epoch {| Epoch := Some 4%Z |} <> None.
Proof.
  apply (dataFromPkg_rpmdb_epoch unit unit util_linux_pkg {| Epoch := Some 4%Z |}).
  vm_compute. reflexivity.
Defined.

Lemma dataFromPkg_deb_apk_no_fragment_witness :
  fst (result (dataFromPkg deb_with_source)) = (UnsetMetadataType, NoMetadata).
Proof.
  apply (dataFromPkg_deb_apk_no_fragment unit unit deb_with_source).
  left. reflexivity.
Defined.

Lemma dataFromPkg_java_witness :
  exists m,
    dataFromPkg jar_with_manifest = ((JavaMetadataType, JavaValue m, []), []) /\
    VirtualPath m = "/opt/app/guava.jar" /\
    PomArtifactID m = "" /\ PomGroupID m = "" /\ ManifestName m = "guava".
Proof.
  destruct (dataFromPkg_java unit unit jar_with_manifest
              {| syft.VirtualPath := "/opt/app/guava.jar";
                 syft.Manifest := Some {| syft.Main := {[ "Name" := "guava" ]} |};
                 syft.PomProperties_ := None |} eq_refl eq_refl)
    as (m & H & Hv & Ha & Hg & Hn).
  exists m. repeat split; assumption.
Defined.

Lemma rpmdbDataFromPkg_unparsed_source_witness :
  snd (result (rpmdbDataFromPkg odd_source_rpm)) = [UpstreamPackage.mk "" "-"] /\
  logged (rpmdbDataFromPkg odd_source_rpm) = [].
Proof.
  apply (rpmdbDataFromPkg_unparsed_source unit unit odd_source_rpm
           {| syft.SourceRpm := "libfoo.tar.gz"; syft.Epoch := None |});
    try reflexivity; try discriminate.
  intros H. apply rpm_filename_suffix in H as (x & E).
  apply (f_equal (@rev ascii)) in E. rewrite rev_app_distr in E.
  discriminate E.
Defined.
